(** * ZDHC wastewater compliance checker: the evaluation core of [src/App.js]

    A shallow embedding of the limit table, the value parser
    ([getInputValue]), the limit resolver ([getLimit]) and the check action
    ([checkCompliance]) of the React component, with the properties the
    specification states about them. *)

From Stdlib Require Import List String Ascii Bool ZArith NArith Lia.
From Stdlib Require Import SpecFloat.
Import ListNotations.

Local Open Scope string_scope.
Local Open Scope list_scope.
Local Open Scope Z_scope.

(** ** JavaScript numbers

    A JavaScript number is an IEEE 754 binary64 value.  [spec_float] is the
    standard library's specification of such values; binary64 has a 53 bit
    mantissa and infinities at exponent 1024. *)

Module Number.

Definition prec : Z := 53.
Definition emax : Z := 1024.

Definition t := spec_float.

Definition NaN : t := S754_nan.
Definition posZero : t := S754_zero false.

Definition isNaN (x : t) : bool :=
  match x with S754_nan => true | _ => false end.

(** [Number::lessThan] of ECMAScript: undefined (here [None]) when an
    operand is NaN, otherwise the IEEE order, where the two zeros are
    equal. *)
Definition lessThan (x y : t) : option bool :=
  match SFcompare x y with
  | None => None
  | Some Lt => Some true
  | Some _ => Some false
  end.

(** The IEEE order on numbers. *)
Definition leb (x y : t) : bool := SFleb x y.
Definition ltb (x y : t) : bool := SFltb x y.

(** The number nearest to [(-1)^neg * m * 10^e], ties to even: the value
    of a decimal text with digits [m] and decimal exponent [e].  A
    non-negative exponent gives an integer, rounded by [binary_round]; a
    negative one gives the quotient of two integers, whose rounding
    position [SFdiv_core_binary] computes. *)
Definition ofDecimal (neg : bool) (m : N) (e : Z) : t :=
  match m with
  | N0 => S754_zero neg
  | Npos p =>
      match e with
      | Zneg k =>
          let '(q, e', l) :=
            SFdiv_core_binary prec emax (Zpos p) 0 (Z.pow 10 (Zpos k)) 0 in
          binary_round_aux prec emax neg q e' l
      | _ => binary_round prec emax neg (Z.to_pos (Zpos p * Z.pow 10 e)) 0
      end
  end.

End Number.

(** ** JavaScript strings and [parseFloat]

    The text of a form field is a JavaScript string: a sequence of UTF-16
    code units.  [parseFloat] inspects its characters, so the code units are
    kept as they are.  Property keys, parameter names and units are never
    inspected; they are kept as [string]. *)

Definition jsstring := list N.

(** The JavaScript string of an ASCII literal. *)
Definition str (s : string) : jsstring :=
  map N_of_ascii (list_ascii_of_string s).

Module ParseFloat.
Local Open Scope N_scope.

(** WhiteSpace and LineTerminator of ECMAScript: what [TrimString]
    removes.  TAB, LF, VT, FF, CR, SP, NBSP, the other space separators
    of Unicode, LS, PS and the byte order mark. *)
Definition isWhiteSpace (c : N) : bool :=
  ((9 <=? c) && (c <=? 13)) || (c =? 32) || (c =? 160) || (c =? 5760)
  || ((8192 <=? c) && (c <=? 8202)) || (c =? 8232) || (c =? 8233)
  || (c =? 8239) || (c =? 8287) || (c =? 12288) || (c =? 65279).

Definition isDigit (c : N) : bool := (48 <=? c) && (c <=? 57).

Fixpoint trimStart (s : jsstring) : jsstring :=
  match s with
  | c :: r => if isWhiteSpace c then trimStart r else s
  | [] => []
  end.

(** The longest run of decimal digits at the start of [s], and the rest. *)
Fixpoint spanDigits (s : jsstring) : jsstring * jsstring :=
  match s with
  | c :: r =>
      if isDigit c then let (ds, rest) := spanDigits r in (c :: ds, rest)
      else ([], s)
  | [] => ([], [])
  end.

(** The value of a run of digits. *)
Definition digitsValue (ds : jsstring) : N :=
  fold_left (fun acc c => 10 * acc + (c - 48)) ds 0.

Fixpoint startsWith (p s : jsstring) : bool :=
  match p, s with
  | [], _ => true
  | a :: p', b :: s' => (a =? b) && startsWith p' s'
  | _ :: _, [] => false
  end.

(** An optional sign: whether it is a minus, and the text after it. *)
Definition sign (s : jsstring) : bool * jsstring :=
  match s with
  | c :: r =>
      if c =? 43 then (false, r)
      else if c =? 45 then (true, r)
      else (false, s)
  | [] => (false, s)
  end.

(** The value of the ExponentPart at the start of [s]: [e] or [E], an
    optional sign and at least one digit.  Without such a part the
    exponent is 0. *)
Definition exponent (s : jsstring) : Z :=
  match s with
  | c :: r =>
      if (c =? 101) || (c =? 69) then
        let (neg, r') := sign r in
        match fst (spanDigits r') with
        | [] => 0%Z
        | ds => if neg then (- Z.of_N (digitsValue ds))%Z
                else Z.of_N (digitsValue ds)
        end
      else 0%Z
  | [] => 0%Z
  end.

(** The number of the longest StrUnsignedDecimalLiteral at the start of
    [u], negated when [neg]; NaN when [u] starts with none. *)
Definition readUnsigned (neg : bool) (u : jsstring) : Number.t :=
  if startsWith (str "Infinity") u then S754_infinity neg
  else
    let (ip, r1) := spanDigits u in
    let (fp, r2) :=
      match r1 with
      | c :: r => if c =? 46 then spanDigits r else ([], r1)
      | [] => ([], r1)
      end in
    match ip ++ fp with
    | [] => Number.NaN
    | ds =>
        Number.ofDecimal neg (digitsValue ds)
          (exponent r2 - Z.of_nat (List.length fp))
    end.

(** [parseFloat] on a string: leading white space is trimmed, the longest
    prefix that is a StrDecimalLiteral is read and the rest is ignored;
    NaN when no prefix is one. *)
Definition parseFloat (s : jsstring) : Number.t :=
  let (neg, u) := sign (trimStart s) in readUnsigned neg u.

End ParseFloat.

(** A numeric literal of the source text, such as [0.05]. *)
Definition num (literal : string) : Number.t :=
  ParseFloat.parseFloat (str literal).

(** ** JavaScript values and completions

    The values the evaluation handles: [undefined], [null], numbers and
    plain data objects.  An object is its list of own properties; no key of
    the program is the name of a member of [Object.prototype], and the
    object literals of the program have no duplicate keys. *)

#[warnings="-register-all"]
Inductive jsval : Type :=
| JUndefined
| JNull
| JNumber (x : Number.t)
| JObject (props : list (string * jsval)).

(** An evaluation either completes normally or throws. *)
Inductive completion (A : Type) : Type :=
| Normal (a : A)
| Throw (error : string).
Arguments Normal {A} a.
Arguments Throw {A} error.

Definition bind {A B} (c : completion A) (k : A -> completion B)
  : completion B :=
  match c with
  | Normal a => k a
  | Throw e => Throw e
  end.

Notation "x <- c ;; k" := (bind c (fun x => k))
  (at level 61, c at next level, right associativity).

Fixpoint lookup {A} (k : string) (props : list (string * A)) : option A :=
  match props with
  | [] => None
  | (k', v) :: rest => if String.eqb k k' then Some v else lookup k rest
  end.

(** Property read [o[k]]: a TypeError on [undefined] and [null], the own
    property of an object or [undefined], and [undefined] on a number
    (whose wrapper has none of the program's keys). *)
Definition getProp (o : jsval) (k : string) : completion jsval :=
  match o with
  | JUndefined | JNull => Throw "TypeError"
  | JNumber _ => Normal JUndefined
  | JObject props =>
      match lookup k props with
      | Some v => Normal v
      | None => Normal JUndefined
      end
  end.

(** [!v]: the falsy values are [undefined], [null], the zeros and NaN. *)
Definition falsy (v : jsval) : bool :=
  match v with
  | JUndefined | JNull => true
  | JNumber (S754_zero _) | JNumber S754_nan => true
  | JNumber _ => false
  | JObject _ => false
  end.

(** [typeof v !== 'undefined'], which is also [v !== undefined]. *)
Definition defined (v : jsval) : bool :=
  match v with JUndefined => false | _ => true end.

(** [v !== null]. *)
Definition notNull (v : jsval) : bool :=
  match v with JNull => false | _ => true end.

(** [typeof v === 'object' && v !== null]. *)
Definition isObject (v : jsval) : bool :=
  match v with JObject _ => true | _ => false end.

(** ToNumber: a plain object becomes the text [[object Object]], which is
    not numeric.  This is the conversion of an object that has no own
    [toString] or [valueOf]; on one that has such a key with a value that
    cannot be called JavaScript throws a TypeError, which is outside this
    model (see [plain]). *)
Definition ToNumber (v : jsval) : Number.t :=
  match v with
  | JUndefined => Number.NaN
  | JNull => Number.posZero
  | JNumber x => x
  | JObject _ => Number.NaN
  end.

(** [a <= b] and [a >= b] as ECMAScript evaluates them: through the
    abstract comparison [IsLessThan] with the operands swapped, false when
    it is undefined. *)
Definition IsLessThan (a b : jsval) : option bool :=
  Number.lessThan (ToNumber a) (ToNumber b).

Definition js_le (a b : jsval) : bool :=
  match IsLessThan b a with
  | Some false => true
  | _ => false
  end.

Definition js_ge (a b : jsval) : bool :=
  match IsLessThan a b with
  | Some false => true
  | _ => false
  end.

(** ** The static limit table ([complianceLimits])

    Keys: [T] textile, [L] leather; [F] foundational, [P] progressive,
    [A] aspirational. *)

Definition n (literal : string) : jsval := JNumber (num literal).

(** [{ F: f }], [{ F: f, P: p, A: a }], [{ T: t, L: l }] and
    [{ min: lo, max: hi }]. *)
Definition onlyF (f : jsval) : jsval := JObject [("F", f)].
Definition tiers (f p a : jsval) : jsval :=
  JObject [("F", f); ("P", p); ("A", a)].
Definition industries (t l : jsval) : jsval := JObject [("T", t); ("L", l)].
Definition range (lo hi : jsval) : jsval :=
  JObject [("min", lo); ("max", hi)].

Definition complianceLimits : jsval :=
  JObject [
    ("mrsl", JObject [
      ("np", onlyF (n "5")); ("npeo", onlyF (n "5"));
      ("op", onlyF (n "5")); ("opeo", onlyF (n "5"));
      ("triclosan", onlyF (n "100")); ("permethrin", onlyF (n "500"));
      ("sccps", onlyF (n "25")); ("mccps", onlyF (n "500"));
      ("pcp", onlyF (n "0.5"));
      ("benzene", onlyF (n "1")); ("toluene", onlyF (n "1"));
      ("xylene", onlyF (n "1"));
      ("dehp", onlyF (n "10")); ("pfos", onlyF (n "0.01"));
      ("pfoa", onlyF (n "1"));
      ("benzidine", onlyF (n "0.1")); ("o_toluidine", onlyF (n "0.1")) ]);
    ("heavyMetals", JObject [
      ("arsenic", industries (tiers (n "0.05") (n "0.01") (n "0.005"))
                             (tiers (n "0.05") (n "0.01") (n "0.005")));
      ("cadmium", industries (tiers (n "0.01") (n "0.005") (n "0.001"))
                             (tiers (n "0.01") (n "0.005") (n "0.001")));
      ("chromiumVI", industries (tiers (n "0.05") (n "0.01") (n "0.005"))
                                (tiers (n "0.15") (n "0.05") (n "0.01")));
      ("totalChromium", industries (tiers (n "0.2") (n "0.1") (n "0.05"))
                                   (tiers (n "0.5") (n "0.2") (n "0.1")));
      ("copper", industries (tiers (n "0.1") (n "0.05") (n "0.02"))
                            (tiers (n "0.1") (n "0.05") (n "0.02")));
      ("lead", industries (tiers (n "0.05") (n "0.01") (n "0.005"))
                          (tiers (n "0.05") (n "0.01") (n "0.005")));
      ("mercury", industries (tiers (n "0.01") (n "0.005") (n "0.001"))
                             (tiers (n "0.01") (n "0.005") (n "0.001")));
      ("nickel", industries (tiers (n "0.2") (n "0.1") (n "0.05"))
                            (tiers (n "0.2") (n "0.1") (n "0.05")));
      ("zinc", industries (tiers (n "0.5") (n "0.2") (n "0.1"))
                          (tiers (n "0.5") (n "0.2") (n "0.1"))) ]);
    ("conventional", JObject [
      ("ph", industries
               (tiers (range (n "6") (n "9")) (range (n "6") (n "9"))
                      (range (n "6") (n "9")))
               (tiers (range (n "6") (n "9")) (range (n "6") (n "9"))
                      (range (n "6") (n "9"))));
      ("temp_diff", industries (tiers (n "15") (n "10") (n "5"))
                               (tiers (n "15") (n "10") (n "5")));
      ("e_coli", industries (tiers (n "126") (n "100") (n "50"))
                            (tiers (n "126") (n "100") (n "50")));
      ("bod5", industries (tiers (n "30") (n "20") (n "10"))
                          (tiers (n "50") (n "30") (n "15")));
      ("cod", industries (tiers (n "150") (n "80") (n "40"))
                         (tiers (n "250") (n "150") (n "75")));
      ("tss", industries (tiers (n "50") (n "30") (n "15"))
                         (tiers (n "70") (n "40") (n "20")));
      ("aox", industries (tiers (n "3") (n "1") (n "0.5"))
                         (tiers (n "3") (n "1") (n "0.5")));
      ("oil_grease", industries (tiers (n "10") (n "5") (n "2"))
                                (tiers (n "20") (n "10") (n "5")));
      ("total_phenols", industries (tiers (n "0.5") (n "0.1") (n "0.05"))
                                   (tiers (n "0.5") (n "0.1") (n "0.05")));
      ("total_nitrogen", industries (tiers (n "20") (n "10") (n "5"))
                                    (tiers (n "35") (n "20") (n "10")));
      ("total_phosphorus", industries (tiers (n "3") (n "1") (n "0.5"))
                                      (tiers (n "3") (n "1") (n "0.5")));
      ("sulphide", industries (tiers (n "0.5") (n "0.1") (n "0.05"))
                              (tiers (n "1") (n "0.2") (n "0.1"))) ]);
    ("sludge", JObject [
      ("np", onlyF (n "0.4"));
      ("pcp", onlyF (n "0.2"));
      ("arsenic_sludge", onlyF (n "5"));
      ("chromiumVI_sludge", onlyF (n "0.5"));
      ("mercury_sludge", onlyF (n "0.1"));
      ("ph_sludge", onlyF (range (n "5") (n "11")));
      ("faecal_coliform", onlyF (n "1000")) ])
  ].

(** The value of a read made once, when the component is set up:
    [complianceLimits.category.key]. *)
Definition readLimits (category key : string) : completion jsval :=
  c <- getProp complianceLimits category ;; getProp c key.

Definition complianceLimitsAt (category key : string) : jsval :=
  match readLimits category key with
  | Normal v => v
  | Throw _ => JUndefined
  end.

(** ** Parameter definitions

    [unit] and [isRange] are absent from some definitions: an absent
    [unit] is [None], an absent [isRange] is falsy. *)

Module Param.
Record t : Type := make {
  id : string;
  name : string;
  limits : jsval;
  unit : option string;
  isRange : bool
}.
End Param.

Definition scalarParam (category key : string) (id name unit : string)
  : Param.t :=
  Param.make id name (complianceLimitsAt category key) (Some unit) false.

Definition rangeParam (category key : string) (id name : string) : Param.t :=
  Param.make id name (complianceLimitsAt category key) None true.

Definition mrslParams : list Param.t :=
  map (fun '(id, name) => scalarParam "mrsl" id id name "µg/L") [
    ("np", "Nonylphenol (NP)");
    ("npeo", "Nonylphenol Ethoxylates (NPEO)");
    ("op", "Octylphenol (OP)");
    ("opeo", "Octylphenol Ethoxylates (OPEO)");
    ("triclosan", "Triclosan");
    ("permethrin", "Permethrin");
    ("sccps", "SCCPs");
    ("mccps", "MCCPs");
    ("pcp", "Pentachlorophenol (PCP)");
    ("benzene", "Benzene");
    ("toluene", "Toluene");
    ("xylene", "Xylene");
    ("dehp", "DEHP (Phthalate)");
    ("pfos", "PFOS");
    ("pfoa", "PFOA");
    ("benzidine", "Benzidine");
    ("o_toluidine", "o-Toluidine") ].

Definition heavyMetalParams : list Param.t :=
  map (fun '(id, name) => scalarParam "heavyMetals" id id name "mg/L") [
    ("arsenic", "Arsenic");
    ("cadmium", "Cadmium");
    ("chromiumVI", "Chromium (VI)");
    ("totalChromium", "Chromium, total");
    ("copper", "Copper");
    ("lead", "Lead");
    ("mercury", "Mercury");
    ("nickel", "Nickel");
    ("zinc", "Zinc") ].

Definition conventionalParams : list Param.t := [
  rangeParam "conventional" "ph" "ph" "pH";
  scalarParam "conventional" "temp_diff" "temp_diff"
    "Temperature Difference (Δ°C)" "°C";
  scalarParam "conventional" "e_coli" "e_coli" "E.coli" "MPN/100-ml";
  scalarParam "conventional" "bod5" "bod5" "BOD5" "mg/L";
  scalarParam "conventional" "cod" "cod" "COD" "mg/L";
  scalarParam "conventional" "tss" "tss" "TSS" "mg/L";
  scalarParam "conventional" "aox" "aox" "AOX" "mg/L";
  scalarParam "conventional" "oil_grease" "oil_grease" "Oil and Grease"
    "mg/L";
  scalarParam "conventional" "total_phenols" "total_phenols" "Total Phenols"
    "mg/L";
  scalarParam "conventional" "total_nitrogen" "total_nitrogen"
    "Total Nitrogen" "mg/L";
  scalarParam "conventional" "total_phosphorus" "total_phosphorus"
    "Total Phosphorus" "mg/L";
  scalarParam "conventional" "sulphide" "sulphide" "Sulphide" "mg/L" ].

Definition sludgeParams : list Param.t := [
  scalarParam "sludge" "np" "np_sludge" "Nonylphenol (Sludge)" "mg/kg";
  scalarParam "sludge" "pcp" "pcp_sludge" "PCP (Sludge)" "mg/kg";
  scalarParam "sludge" "arsenic_sludge" "arsenic_sludge" "Arsenic (Sludge)"
    "mg/kg";
  scalarParam "sludge" "chromiumVI_sludge" "chromiumVI_sludge"
    "Chromium (VI) (Sludge)" "mg/kg";
  scalarParam "sludge" "mercury_sludge" "mercury_sludge" "Mercury (Sludge)"
    "mg/kg";
  rangeParam "sludge" "ph_sludge" "ph_sludge" "pH (Sludge)";
  scalarParam "sludge" "faecal_coliform" "faecal_coliform"
    "Faecal Coliform (Sludge)" "MPN/g" ].

(** Every parameter, in the order the check action visits them. *)
Definition allParams : list Param.t :=
  mrslParams ++ heavyMetalParams ++ conventionalParams ++ sludgeParams.

(** ** The component state

    The three selectors take the values their [select] elements offer;
    [industryKey] and [levelKey] are the option values, which the code uses
    as property keys. *)

Inductive Industry : Type := Textile | Leather.
Inductive Level : Type := Foundational | Progressive | Aspirational.
Inductive Discharge : Type := Direct | Indirect | ZLD.

Definition industryKey (i : Industry) : string :=
  match i with Textile => "T" | Leather => "L" end.

Definition levelKey (l : Level) : string :=
  match l with
  | Foundational => "F"
  | Progressive => "P"
  | Aspirational => "A"
  end.

(** What a result row shows: a value as it is, a text, or the text
    [`${min}-${max}`] of a range. *)
Inductive display : Type :=
| Raw (v : jsval)
| Text (s : string)
| RangeText (min max : jsval).

Module Result.
Record t : Type := make {
  paramName : string;
  value : display;
  limit : display;
  isCompliant : bool;
  unit : string
}.
End Result.

(** A chart point; [minLimit] is present on the points of range
    parameters only. *)
Module ChartPoint.
Record t : Type := make {
  id : string;
  name : string;
  value : jsval;
  limit : jsval;
  minLimit : option jsval;
  unit : option string
}.
End ChartPoint.

(** The state of the form ([params], one text per field id), of the three
    selectors, and of what the last check action produced. *)
Module App.
Record t : Type := make {
  params : list (string * jsstring);
  industryType : Industry;
  complianceLevel : Level;
  dischargeType : Discharge;
  results : list Result.t;
  showResults : bool;
  chartData : list ChartPoint.t;
  overallCompliant : bool
}.
End App.

(** ** [getInputValue]

    [params[id]] is the text of the field; of a field that is not in
    [params] it is [undefined], which [parseFloat] reads as the text
    [undefined]. *)
Definition paramText (st : App.t) (id : string) : jsstring :=
  match lookup id (App.params st) with
  | Some text => text
  | None => str "undefined"
  end.

Definition getInputValue (st : App.t) (id : string) : completion jsval :=
  let value := ParseFloat.parseFloat (paramText st id) in
  Normal (if Number.isNaN value then JNull else JNumber value).

(** ** [getLimit] *)
Definition getLimit (st : App.t) (paramLimits : jsval) : completion jsval :=
  if falsy paramLimits then Normal JNull
  else
    let industryType := industryKey (App.industryType st) in
    let complianceLevel := levelKey (App.complianceLevel st) in
    scoped <- getProp paramLimits industryType ;;
    levelLimits <-
      (if defined scoped then getProp paramLimits industryType
       else Normal paramLimits) ;;
    limit <- getProp levelLimits complianceLevel ;;
    limit <-
      (if negb (defined limit) then
         foundational <- getProp levelLimits "F" ;;
         if defined foundational then getProp levelLimits "F"
         else Normal limit
       else Normal limit) ;;
    Normal (if defined limit then limit else JNull).

(** ** [checkCompliance]

    The three local variables the callbacks update. *)
Record Acc : Type := mkAcc {
  newResults : list Result.t;
  allCompliant : bool;
  newChartData : list ChartPoint.t
}.

(** [array.forEach(callback)], the callback updating the locals. *)
Fixpoint forEach {A S : Type} (xs : list A)
  (callback : A -> S -> completion S) (s : S) : completion S :=
  match xs with
  | [] => Normal s
  | x :: rest => s' <- callback x s ;; forEach rest callback s'
  end.

(** [addResult]; a [unit] that is not passed, or is [undefined], takes the
    default [''] .  [RangeText lo hi] stands for the template text, whose
    conversion of [lo] and [hi] to text completes on [plain] values. *)
Definition addResult (paramName : string) (value limit : jsval)
  (isCompliant : bool) (unit : option string) (acc : Acc) : completion Acc :=
  limitDisplay <-
    (if isObject limit && notNull limit then
       lo <- getProp limit "min" ;;
       hi <- getProp limit "max" ;;
       Normal (RangeText lo hi)
     else Normal (Raw limit)) ;;
  let row :=
    Result.make paramName
      (if notNull value then Raw value else Text "N/A")
      limitDisplay isCompliant
      (match unit with Some u => u | None => EmptyString end) in
  Normal (mkAcc (newResults acc ++ [row])
                (if negb isCompliant then false else allCompliant acc)
                (newChartData acc)).

Definition pushChart (point : ChartPoint.t) (acc : Acc) : Acc :=
  mkAcc (newResults acc) (allCompliant acc) (newChartData acc ++ [point]).

(** The callback of the MRSL loop and of the heavy metals loop, which have
    the same text. *)
Definition scalarStep (st : App.t) (p : Param.t) (acc : Acc)
  : completion Acc :=
  value <- getInputValue st (Param.id p) ;;
  limit <- getLimit st (Param.limits p) ;;
  let isCompliant :=
    if notNull value && notNull limit then js_le value limit else true in
  acc <- addResult (Param.name p) value limit isCompliant (Param.unit p) acc ;;
  if notNull value && notNull limit then
    Normal (pushChart
      (ChartPoint.make (Param.id p) (Param.name p) value limit None
         (Param.unit p)) acc)
  else Normal acc.

(** The callback of the conventional parameters loop. *)
Definition conventionalStep (st : App.t) (p : Param.t) (acc : Acc)
  : completion Acc :=
  value <- getInputValue st (Param.id p) ;;
  limit <- getLimit st (Param.limits p) ;;
  if Param.isRange p then
    isCompliant <-
      (if notNull value && notNull limit then
         lo <- getProp limit "min" ;;
         if js_ge value lo then
           hi <- getProp limit "max" ;; Normal (js_le value hi)
         else Normal false
       else Normal true) ;;
    acc <- addResult (Param.name p) value limit isCompliant None acc ;;
    if notNull value && notNull limit then
      hi <- getProp limit "max" ;;
      lo <- getProp limit "min" ;;
      Normal (pushChart
        (ChartPoint.make (Param.id p) (Param.name p) value hi (Some lo)
           (Param.unit p)) acc)
    else Normal acc
  else
    let isCompliant :=
      if notNull value && notNull limit then js_le value limit else true in
    acc <- addResult (Param.name p) value limit isCompliant (Param.unit p)
             acc ;;
    if notNull value && notNull limit then
      Normal (pushChart
        (ChartPoint.make (Param.id p) (Param.name p) value limit None
           (Param.unit p)) acc)
    else Normal acc.

(** The callback of the sludge loop: no chart point. *)
Definition sludgeStep (st : App.t) (p : Param.t) (acc : Acc)
  : completion Acc :=
  value <- getInputValue st (Param.id p) ;;
  limit <- getLimit st (Param.limits p) ;;
  if Param.isRange p then
    isCompliant <-
      (if notNull value && notNull limit then
         lo <- getProp limit "min" ;;
         if js_ge value lo then
           hi <- getProp limit "max" ;; Normal (js_le value hi)
         else Normal false
       else Normal true) ;;
    addResult (Param.name p) value limit isCompliant None acc
  else
    let isCompliant :=
      if notNull value && notNull limit then js_le value limit else true in
    addResult (Param.name p) value limit isCompliant (Param.unit p) acc.

(** The locals after the four loops. *)
Definition runLoops (st : App.t) : completion Acc :=
  acc <- forEach mrslParams (scalarStep st) (mkAcc [] true []) ;;
  acc <- forEach heavyMetalParams (scalarStep st) acc ;;
  acc <- forEach conventionalParams (conventionalStep st) acc ;;
  forEach sludgeParams (sludgeStep st) acc.

(** The check action: the state after the four setters. *)
Definition checkCompliance (st : App.t) : completion App.t :=
  acc <- runLoops st ;;
  Normal (App.make (App.params st) (App.industryType st)
            (App.complianceLevel st) (App.dischargeType st)
            (newResults acc) true (newChartData acc) (allCompliant acc)).

(** A form state with the given field texts and selectors, before any
    check action. *)
Definition form (params : list (string * jsstring)) (i : Industry)
  (l : Level) (d : Discharge) : App.t :=
  App.make params i l d [] false [] true.

(** The rows a check action marks as not compliant, and its overall flag. *)
Definition flagsOf (st : App.t) : option (list (string * bool) * bool) :=
  match checkCompliance st with
  | Normal st' =>
      Some (filter (fun row => negb (snd row))
              (map (fun r => (Result.paramName r, Result.isCompliant r))
                 (App.results st')),
            App.overallCompliant st')
  | Throw _ => None
  end.

(** ** The limit resolver in the specification's words

    [resolveLimit] follows the five steps the specification gives for the
    resolver; [entry spec key] is the entry of [spec] keyed by [key].  An
    absent spec and an absent result are [None]. *)

Definition entry (spec : jsval) (key : string) : option jsval :=
  match spec with
  | JObject props => lookup key props
  | _ => None
  end.

Definition resolveLimit (spec : option jsval) (industry : Industry)
  (tier : Level) : option jsval :=
  match spec with
  | None => None
  | Some spec =>
      let flat :=
        match entry spec (industryKey industry) with
        | Some branch => branch
        | None => spec
        end in
      match entry flat (levelKey tier) with
      | Some limit => Some limit
      | None =>
          match entry flat "F" with
          | Some limit => Some limit
          | None => None
          end
      end
  end.

(** How the code passes an absent spec ([undefined]) and returns an absent
    limit ([null]). *)
Definition specArg (spec : option jsval) : jsval :=
  match spec with Some s => s | None => JUndefined end.

Definition orNull (limit : option jsval) : jsval :=
  match limit with Some l => l | None => JNull end.

(** Every limit spec of the static table, category by category. *)
Definition staticSpecs : list jsval :=
  match complianceLimits with
  | JObject categories =>
      flat_map (fun category =>
                  match snd category with
                  | JObject specs => map snd specs
                  | _ => []
                  end) categories
  | _ => []
  end.

(** ** The grammar of the texts [parseFloat] reads

    StrDecimalLiteral of ECMAScript, as a predicate on whole texts. *)

Definition optional (P : jsstring -> Prop) (x : jsstring) : Prop :=
  x = [] \/ P x.

Definition DecimalDigits (ds : jsstring) : Prop :=
  ds <> [] /\ forallb ParseFloat.isDigit ds = true.

Definition SignedInteger (x : jsstring) : Prop :=
  exists ds,
    DecimalDigits ds /\ (x = ds \/ x = 43%N :: ds \/ x = 45%N :: ds).

Definition ExponentPart (x : jsstring) : Prop :=
  exists c si,
    x = c :: si /\ (c = 101%N \/ c = 69%N) /\ SignedInteger si.

Inductive StrUnsignedDecimalLiteral : jsstring -> Prop :=
| Literal_Infinity : StrUnsignedDecimalLiteral (str "Infinity")
| Literal_point ip fp ex :
    DecimalDigits ip -> optional DecimalDigits fp ->
    optional ExponentPart ex ->
    StrUnsignedDecimalLiteral (ip ++ 46%N :: fp ++ ex)
| Literal_fraction fp ex :
    DecimalDigits fp -> optional ExponentPart ex ->
    StrUnsignedDecimalLiteral (46%N :: fp ++ ex)
| Literal_integer ip ex :
    DecimalDigits ip -> optional ExponentPart ex ->
    StrUnsignedDecimalLiteral (ip ++ ex).

Inductive StrDecimalLiteral : jsstring -> Prop :=
| Literal_unsigned u : StrUnsignedDecimalLiteral u -> StrDecimalLiteral u
| Literal_plus u :
    StrUnsignedDecimalLiteral u -> StrDecimalLiteral (43%N :: u)
| Literal_minus u :
    StrUnsignedDecimalLiteral u -> StrDecimalLiteral (45%N :: u).

(** The characters literals are made of. *)
Definition literalChar (c : N) : bool :=
  ParseFloat.isDigit c || existsb (N.eqb c) (str "+-.eEInfinity").

(** A text that, after leading white space, starts with a literal. *)
Definition hasLiteralPrefix (s : jsstring) : Prop :=
  exists ws lit rest,
    s = ws ++ lit ++ rest
    /\ forallb ParseFloat.isWhiteSpace ws = true
    /\ StrDecimalLiteral lit.

(** A valid decimal number, in the specification's words: a text that is a
    number from its first character to its last. *)
Definition validNumber (s : jsstring) : Prop := StrDecimalLiteral s.

(** ** Editing a field ([handleChange])

    [{ ...prevParams, [id]: value }]: the properties of the previous
    object in their order, the one keyed by [id] replaced where it stands,
    or added at the end.  (JavaScript lists a new key that is written as
    an integer before the others; no field id is one.) *)

Fixpoint setProp {A} (k : string) (v : A) (props : list (string * A))
  : list (string * A) :=
  match props with
  | [] => [(k, v)]
  | (k', v') :: rest =>
      if String.eqb k k' then (k, v) :: rest
      else (k', v') :: setProp k v rest
  end.

(** [handleChange] on the event of the field [id] whose text is now
    [value]. *)
Definition handleChange (id : string) (value : jsstring) (st : App.t)
  : App.t :=
  App.make (setProp id value (App.params st)) (App.industryType st)
    (App.complianceLevel st) (App.dischargeType st) (App.results st)
    (App.showResults st) (App.chartData st) (App.overallCompliant st).

(** ** The data of the two charts and the reference line

    [Object.keys(o)]: a TypeError on [undefined] and [null], the own keys
    of an object, none for a number. *)

Definition ObjectKeys (o : jsval) : completion (list string) :=
  match o with
  | JUndefined | JNull => Throw "TypeError"
  | JNumber _ => Normal []
  | JObject props => Normal (map fst props)
  end.

(** [keys.includes(k)]. *)
Definition includes (keys : list string) (k : string) : bool :=
  existsb (String.eqb k) keys.

(** [array.filter(callback)]. *)
Fixpoint filterWith {A : Type} (callback : A -> completion bool)
  (xs : list A) : completion (list A) :=
  match xs with
  | [] => Normal []
  | x :: rest =>
      keep <- callback x ;;
      kept <- filterWith callback rest ;;
      Normal (if keep then x :: kept else kept)
  end.

(** The callback of the first chart's filter. *)
Definition inMrslOrHeavyMetals (d : ChartPoint.t) : completion bool :=
  mrsl <- getProp complianceLimits "mrsl" ;;
  keys <- ObjectKeys mrsl ;;
  if includes keys (ChartPoint.id d) then Normal true
  else
    heavyMetals <- getProp complianceLimits "heavyMetals" ;;
    keys <- ObjectKeys heavyMetals ;;
    Normal (includes keys (ChartPoint.id d)).

(** The callback of the second chart's filter. *)
Definition inConventional (d : ChartPoint.t) : completion bool :=
  conventional <- getProp complianceLimits "conventional" ;;
  keys <- ObjectKeys conventional ;;
  Normal (includes keys (ChartPoint.id d)).

Definition mrslHeavyMetalsChart (st : App.t)
  : completion (list ChartPoint.t) :=
  filterWith inMrslOrHeavyMetals (App.chartData st).

Definition conventionalChart (st : App.t) : completion (list ChartPoint.t) :=
  filterWith inConventional (App.chartData st).


(** ** Saving and loading the form ([saveResults], [loadResults])

    The document store is an external service: an interface.  A document
    is what [saveResults] writes; a field a stored document lacks is
    [None].  [setDoc] gives the store after the request and the message of
    the error when the request is rejected; [getDoc] resolves to the
    document at a path, if there is one, or is rejected. *)

Module Document.
Record t : Type := make {
  params : option (list (string * jsstring));
  industryType : option Industry;
  complianceLevel : option Level;
  dischargeType : option Discharge;
  timestamp : option string
}.
End Document.

Inductive reply (A : Type) : Type :=
| Resolved (a : A)
| Rejected (message : string).
Arguments Resolved {A} a.
Arguments Rejected {A} message.

Class DocumentStore (S : Type) : Type := {
  getDoc : S -> string -> reply (option Document.t);
  setDoc : S -> string -> Document.t -> S * option string
}.

(** A store keeps what it accepted: the law the handlers rely on. *)
Definition keepsDocuments (S : Type) `{DocumentStore S} : Prop :=
  forall (s s' : S) (path : string) (d : Document.t),
    setDoc s path d = (s', None) -> getDoc s' path = Resolved (Some d).

(** A store in memory that accepts every request. *)
#[export] Instance memoryStore : DocumentStore (list (string * Document.t)) := {
  getDoc s path := Resolved (lookup path s);
  setDoc s path d := (setProp path d s, None)
}.

Inductive Firestore : Type := FirestoreInstance.

(** The component: the form, and the state of the connection. *)
Module Component.
Record t : Type := make {
  app : App.t;
  db : option Firestore;
  userId : string;
  isAuthReady : bool;
  message : string
}.
End Component.

Definition setMessage (text : string) (c : Component.t) : Component.t :=
  Component.make (Component.app c) (Component.db c) (Component.userId c)
    (Component.isAuthReady c) text.

(** [!isAuthReady || !db || !userId]. *)
Definition notReady (c : Component.t) : bool :=
  negb (Component.isAuthReady c)
  || match Component.db c with Some _ => false | None => true end
  || String.eqb (Component.userId c) EmptyString.

(** The path of the user's document; [app_id] is the global [__app_id],
    [None] when it is not defined. *)
Definition docPath (app_id : option string) (userId : string) : string :=
  let appId :=
    match app_id with Some a => a | None => "default-app-id" end in
  "artifacts/" ++ appId ++ "/users/" ++ userId ++ "/compliance_data"
  ++ "/latest".

(** [saveResults]; [now] is [new Date().toISOString()]. *)
Definition saveResults {S : Type} `{DocumentStore S}
  (app_id : option string) (now : string) (c : Component.t) (store : S)
  : Component.t * S :=
  if notReady c then
    (setMessage "Authentication not ready. Please wait or refresh." c, store)
  else
    let st := Component.app c in
    let (store', error) :=
      setDoc store (docPath app_id (Component.userId c))
        (Document.make (Some (App.params st)) (Some (App.industryType st))
           (Some (App.complianceLevel st)) (Some (App.dischargeType st))
           (Some now)) in
    match error with
    | None => (setMessage "Data saved successfully!" c, store')
    | Some e => (setMessage ("Error saving data: " ++ e) c, store')
    end.

(** [loadResults], to the end of the timer it sets.  The timer calls the
    [checkCompliance] of the render in which the handler started, which
    reads the state of that render: the form before the load. *)
Definition loadResults {S : Type} `{DocumentStore S}
  (app_id : option string) (c : Component.t) (store : S) : Component.t :=
  if notReady c then
    setMessage "Authentication not ready. Please wait or refresh." c
  else
    match getDoc store (docPath app_id (Component.userId c)) with
    | Rejected e => setMessage ("Error loading data: " ++ e) c
    | Resolved None => setMessage "No saved data found for this user." c
    | Resolved (Some loadedData) =>
        let st := Component.app c in
        let params :=
          match Document.params loadedData with
          | Some ps => ps
          | None => []
          end in
        let industryType :=
          match Document.industryType loadedData with
          | Some i => i
          | None => Textile
          end in
        let complianceLevel :=
          match Document.complianceLevel loadedData with
          | Some l => l
          | None => Foundational
          end in
        let dischargeType :=
          match Document.dischargeType loadedData with
          | Some d => d
          | None => Direct
          end in
        let loaded :=
          match checkCompliance st with
          | Normal checked =>
              App.make params industryType complianceLevel dischargeType
                (App.results checked) (App.showResults checked)
                (App.chartData checked) (App.overallCompliant checked)
          | Throw _ =>
              App.make params industryType complianceLevel dischargeType
                (App.results st) (App.showResults st) (App.chartData st)
                (App.overallCompliant st)
          end in
        Component.make loaded (Component.db c) (Component.userId c)
          (Component.isAuthReady c) "Data loaded successfully!"
    end.

(** ** Renders, setters and timers

    The handlers are closures of one render of the component: they read
    the state that render was given.  What a handler does to the state is
    the list of its calls, in order: a call of a state setter with a value,
    or [setTimeout] with a callback, itself a list of setter calls. *)

Module React.
Inductive setter : Type :=
| setParams (value : list (string * jsstring))
| setIndustryType (value : Industry)
| setComplianceLevel (value : Level)
| setDischargeType (value : Discharge)
| setResults (value : list Result.t)
| setShowResults (value : bool)
| setChartData (value : list ChartPoint.t)
| setOverallCompliant (value : bool)
| setMessage (value : string).

End React.

(** A setter replaces one piece of the state. *)
Definition applySetter (s : React.setter) (c : Component.t) : Component.t :=
  let st := Component.app c in
  let withApp (st' : App.t) :=
    Component.make st' (Component.db c) (Component.userId c)
      (Component.isAuthReady c) (Component.message c) in
  match s with
  | React.setParams v =>
      withApp (App.make v (App.industryType st) (App.complianceLevel st)
                 (App.dischargeType st) (App.results st)
                 (App.showResults st) (App.chartData st)
                 (App.overallCompliant st))
  | React.setIndustryType v =>
      withApp (App.make (App.params st) v (App.complianceLevel st)
                 (App.dischargeType st) (App.results st)
                 (App.showResults st) (App.chartData st)
                 (App.overallCompliant st))
  | React.setComplianceLevel v =>
      withApp (App.make (App.params st) (App.industryType st) v
                 (App.dischargeType st) (App.results st)
                 (App.showResults st) (App.chartData st)
                 (App.overallCompliant st))
  | React.setDischargeType v =>
      withApp (App.make (App.params st) (App.industryType st)
                 (App.complianceLevel st) v (App.results st)
                 (App.showResults st) (App.chartData st)
                 (App.overallCompliant st))
  | React.setResults v =>
      withApp (App.make (App.params st) (App.industryType st)
                 (App.complianceLevel st) (App.dischargeType st) v
                 (App.showResults st) (App.chartData st)
                 (App.overallCompliant st))
  | React.setShowResults v =>
      withApp (App.make (App.params st) (App.industryType st)
                 (App.complianceLevel st) (App.dischargeType st)
                 (App.results st) v (App.chartData st)
                 (App.overallCompliant st))
  | React.setChartData v =>
      withApp (App.make (App.params st) (App.industryType st)
                 (App.complianceLevel st) (App.dischargeType st)
                 (App.results st) (App.showResults st) v
                 (App.overallCompliant st))
  | React.setOverallCompliant v =>
      withApp (App.make (App.params st) (App.industryType st)
                 (App.complianceLevel st) (App.dischargeType st)
                 (App.results st) (App.showResults st) (App.chartData st)
                 v)
  | React.setMessage v => setMessage v c
  end.


(** [checkCompliance] as the closure of the render whose form is [st]: the
    loops read [st], then the four setters are called; a throw in the
    loops leaves them uncalled. *)
Definition checkComplianceOf (st : App.t) : list React.setter :=
  match runLoops st with
  | Normal acc =>
      [ React.setResults (newResults acc);
        React.setOverallCompliant (allCompliant acc);
        React.setChartData (newChartData acc);
        React.setShowResults true ]
  | Throw _ => []
  end.


(** ** Orders on the selectors, and specs without holes

    [stricter l1 l2]: the tier [l1] is [l2] or comes after it in
    foundational, progressive, aspirational. *)

Definition stricter (l1 l2 : Level) : bool :=
  match l1, l2 with
  | Aspirational, _ => true
  | Progressive, (Progressive | Foundational) => true
  | Foundational, Foundational => true
  | _, _ => false
  end.

(** The value of a property that may be missing. *)
Definition orUndefined (v : option jsval) : jsval :=
  match v with Some x => x | None => JUndefined end.

(** Every entry of an object has a value other than [undefined]. *)
Definition definedEntries (o : jsval) : bool :=
  match o with
  | JObject props => forallb (fun kv => defined (snd kv)) props
  | _ => true
  end.

(** A spec no entry of which is [undefined], and whose entry for the
    industry, if it has one, is not [null]. *)
Definition wellFormedSpec (industry : Industry) (spec : jsval) : bool :=
  definedEntries spec
  && match entry spec (industryKey industry) with
     | Some branch => notNull branch && definedEntries branch
     | None => true
     end.

(** [limit1] allows no more than [limit2]: a smaller or equal number, or a
    range inside the other. *)
Definition limitWithin (limit1 limit2 : jsval) : bool :=
  match limit1, limit2 with
  | JNumber x1, JNumber x2 => Number.leb x1 x2
  | JObject [(_, JNumber lo1); (_, JNumber hi1)],
    JObject [(_, JNumber lo2); (_, JNumber hi2)] =>
      Number.leb lo2 lo1 && Number.leb hi1 hi2
  | _, _ => false
  end.

Definition resolvesWithin (st1 st2 : App.t) (p : Param.t) : bool :=
  match getLimit st1 (Param.limits p), getLimit st2 (Param.limits p) with
  | Normal limit1, Normal limit2 => limitWithin limit1 limit2
  | _, _ => false
  end.

(** A range whose bounds are in order. *)
Definition boundsOrdered (limit : jsval) : bool :=
  match limit with
  | JObject [(_, JNumber lo); (_, JNumber hi)] => Number.leb lo hi
  | _ => true
  end.

(** The last three steps of [getLimit]. *)
Definition flatSteps (levelLimits : jsval) (complianceLevel : string)
  : completion jsval :=
  limit <- getProp levelLimits complianceLevel ;;
  limit <-
    (if negb (defined limit) then
       foundational <- getProp levelLimits "F" ;;
       if defined foundational then getProp levelLimits "F"
       else Normal limit
     else Normal limit) ;;
  Normal (if defined limit then limit else JNull).


(** The names of the members of [Object.prototype]. *)
Definition prototypeMembers : list string :=
  [ "constructor"; "hasOwnProperty"; "isPrototypeOf";
    "propertyIsEnumerable"; "toLocaleString"; "toString"; "valueOf";
    "__proto__"; "__defineGetter__"; "__defineSetter__";
    "__lookupGetter__"; "__lookupSetter__" ].

(** Plain data: a value no object of which, at any depth, has an own key
    that is the name of a member of [Object.prototype].  On plain data an
    object is its list of own properties, its conversion to a number is
    NaN and its conversion to text completes, as this model has them. *)
Fixpoint plain (v : jsval) : bool :=
  match v with
  | JObject props =>
      (fix every (ps : list (string * jsval)) : bool :=
         match ps with
         | [] => true
         | (k, x) :: rest =>
             negb (includes prototypeMembers k) && plain x && every rest
         end) props
  | _ => true
  end.

(** A parameter whose measured value is outside its resolved limit. *)
Definition outOfLimit (st : App.t) (p : Param.t) : Prop :=
  exists v limit,
    getInputValue st (Param.id p) = Normal (JNumber v)
    /\ getLimit st (Param.limits p) = Normal limit
    /\ if Param.isRange p then
         exists lo hi,
           limit = range (JNumber lo) (JNumber hi)
           /\ Number.leb lo v && Number.leb v hi = false
       else exists x, limit = JNumber x /\ Number.leb v x = false.

(** ** Views used by the proofs

    Pure readings of one parameter's evaluation: the value of its field, its
    classification, its result row and its chart points. *)

Definition inputValue (st : App.t) (id : string) : jsval :=
  let value := ParseFloat.parseFloat (paramText st id) in
  if Number.isNaN value then JNull else JNumber value.

Definition limitOf (st : App.t) (p : Param.t) : jsval :=
  match getLimit st (Param.limits p) with
  | Normal limit => limit
  | Throw _ => JNull
  end.

Definition field (o : jsval) (k : string) : jsval :=
  match getProp o k with
  | Normal v => v
  | Throw _ => JUndefined
  end.

Definition classify (isRange : bool) (value limit : jsval) : bool :=
  if notNull value && notNull limit then
    if isRange then
      js_ge value (field limit "min") && js_le value (field limit "max")
    else js_le value limit
  else true.

Definition limitDisplayOf (limit : jsval) : display :=
  if isObject limit then RangeText (field limit "min") (field limit "max")
  else Raw limit.

Definition rowOf (st : App.t) (p : Param.t) : Result.t :=
  let value := inputValue st (Param.id p) in
  let limit := limitOf st p in
  Result.make (Param.name p)
    (if notNull value then Raw value else Text "N/A")
    (limitDisplayOf limit)
    (classify (Param.isRange p) value limit)
    (if Param.isRange p then EmptyString
     else match Param.unit p with Some u => u | None => EmptyString end).

Definition pointsOf (st : App.t) (p : Param.t) : list ChartPoint.t :=
  let value := inputValue st (Param.id p) in
  let limit := limitOf st p in
  if notNull value && notNull limit then
    if Param.isRange p then
      [ChartPoint.make (Param.id p) (Param.name p) value (field limit "max")
         (Some (field limit "min")) (Param.unit p)]
    else
      [ChartPoint.make (Param.id p) (Param.name p) value limit None
         (Param.unit p)]
  else [].

(** The parameters of the three loops that push chart points. *)
Definition chartedParams : list Param.t :=
  mrslParams ++ heavyMetalParams ++ conventionalParams.

(** The locals after one callback that adds [row] and [points]. *)
Definition extend (row : Result.t) (points : list ChartPoint.t) (acc : Acc)
  : Acc :=
  mkAcc (newResults acc ++ [row])
        (allCompliant acc && Result.isCompliant row)
        (newChartData acc ++ points).

(** The shape of a resolved limit: a positive number for a scalar
    parameter, a pair of numbers for a range parameter. *)
Inductive limitShape : bool -> jsval -> Prop :=
| ScalarLimit x :
    Number.ltb Number.posZero x = true -> limitShape false (JNumber x)
| RangeLimit lo hi : limitShape true (range (JNumber lo) (JNumber hi)).

Definition limitShapeb (isRange : bool) (limit : jsval) : bool :=
  match isRange, limit with
  | false, JNumber x => Number.ltb Number.posZero x
  | true, JObject [(k1, JNumber _); (k2, JNumber _)] =>
      String.eqb k1 "min" && String.eqb k2 "max"
  | _, _ => false
  end.

(** The state that holds only the two selectors [getLimit] reads. *)
Definition context (i : Industry) (l : Level) : App.t :=
  App.make [] i l Direct [] false [] true.

Definition contexts : list App.t :=
  [ context Textile Foundational; context Textile Progressive;
    context Textile Aspirational; context Leather Foundational;
    context Leather Progressive; context Leather Aspirational ].

Definition resolvesWell (st : App.t) (p : Param.t) : bool :=
  match getLimit st (Param.limits p) with
  | Normal limit => limitShapeb (Param.isRange p) limit
  | Throw _ => false
  end.

(** ** Numbers: the comparisons of the code are the IEEE order *)

Section NumberFacts.

Lemma SFcompare_swap (x y : Number.t) :
  SFcompare y x = option_map CompOpp (SFcompare x y).
Proof.
  destruct x as [sx|sx| |sx mx ex], y as [sy|sy| |sy my ey];
    simpl; try reflexivity;
    try (destruct sx; reflexivity); try (destruct sy; reflexivity);
    try (destruct sx, sy; reflexivity).
  pose proof (Pos.compare_cont_antisym mx my Eq) as Hm; simpl in Hm.
  destruct sx, sy; simpl; try reflexivity;
    rewrite (Z.compare_antisym ex ey);
    destruct (ex ?= ey); simpl; try reflexivity;
    rewrite <- Hm; try rewrite CompOpp_involutive; reflexivity.
Qed.

Lemma js_le_number (x y : Number.t) :
  js_le (JNumber x) (JNumber y) = Number.leb x y.
Proof.
  unfold js_le, IsLessThan, Number.lessThan, Number.leb, SFleb; simpl.
  rewrite (SFcompare_swap x y).
  destruct (SFcompare x y) as [[ | | ]|]; reflexivity.
Qed.

Lemma js_ge_number (x y : Number.t) :
  js_ge (JNumber x) (JNumber y) = Number.leb y x.
Proof.
  unfold js_ge, IsLessThan, Number.lessThan, Number.leb, SFleb; simpl.
  rewrite (SFcompare_swap x y).
  destruct (SFcompare x y) as [[ | | ]|]; reflexivity.
Qed.

(** A number below zero is at most any number above zero. *)
Lemma negative_le_positive (v x : Number.t) :
  Number.ltb v Number.posZero = true ->
  Number.ltb Number.posZero x = true ->
  Number.leb v x = true.
Proof.
  unfold Number.ltb, Number.leb, SFltb, SFleb, Number.posZero.
  destruct v as [sv|sv| |sv mv ev], x as [sx|sx| |sx mx ex];
    simpl; try discriminate;
    try (destruct sv; discriminate); try (destruct sx; discriminate);
    destruct sv, sx; simpl; try discriminate; reflexivity.
Qed.

(** A number above zero is at most itself. *)
Lemma positive_le_self (x : Number.t) :
  Number.ltb Number.posZero x = true -> Number.leb x x = true.
Proof.
  unfold Number.ltb, Number.leb, SFltb, SFleb, Number.posZero.
  destruct x as [s|s| |s m e]; simpl; try discriminate;
    destruct s; try discriminate; intros _; [reflexivity|].
  now rewrite Z.compare_refl, Pos.compare_cont_refl.
Qed.

End NumberFacts.

(** ** The limits the table gives to the parameters *)

Section TableFacts.

Lemma getLimit_context (st : App.t) (spec : jsval) :
  getLimit st spec
  = getLimit (context (App.industryType st) (App.complianceLevel st)) spec.
Proof. reflexivity. Qed.

Lemma context_listed (i : Industry) (l : Level) : In (context i l) contexts.
Proof. destruct i, l; simpl; tauto. Qed.

Lemma limitShapeb_sound (isRange : bool) (limit : jsval) :
  limitShapeb isRange limit = true -> limitShape isRange limit.
Proof.
  destruct isRange, limit as [ | |x|props]; simpl; try discriminate.
  - destruct props as [|[k1 [ | |lo|?]] [|[k2 [ | |hi|?]] [|? ?]]];
      try discriminate.
    intros H. apply andb_prop in H as [H1 H2].
    apply String.eqb_eq in H1, H2. subst. constructor.
  - intros H. now constructor.
Qed.

Lemma table_resolves :
  forallb (fun st => forallb (resolvesWell st) allParams) contexts = true.
Proof. vm_compute. reflexivity. Qed.

(** Every parameter has a limit of its own shape in every context. *)
Lemma limit_shape (st : App.t) (p : Param.t) :
  In p allParams ->
  exists limit,
    getLimit st (Param.limits p) = Normal limit
    /\ limitShape (Param.isRange p) limit.
Proof.
  intros Hp.
  pose proof table_resolves as H.
  rewrite forallb_forall in H.
  specialize (H _ (context_listed (App.industryType st)
                     (App.complianceLevel st))).
  rewrite forallb_forall in H. specialize (H p Hp).
  unfold resolvesWell in H. rewrite <- getLimit_context in H.
  destruct (getLimit st (Param.limits p)) as [limit|]; [|discriminate].
  exists limit. split; [reflexivity|]. now apply limitShapeb_sound.
Qed.

Lemma scalar_loops :
  forallb (fun p => negb (Param.isRange p))
    (mrslParams ++ heavyMetalParams) = true.
Proof. reflexivity. Qed.

Lemma limitOf_eq (st : App.t) (p : Param.t) (limit : jsval) :
  getLimit st (Param.limits p) = Normal limit -> limitOf st p = limit.
Proof. unfold limitOf. now intros ->. Qed.

End TableFacts.

(** ** The loops of the check action *)

Section LoopFacts.

Variable st : App.t.

Lemma getInputValue_eq (id : string) :
  getInputValue st id = Normal (inputValue st id).
Proof. reflexivity. Qed.

Lemma bind_normal {A B} (a : A) (k : A -> completion B) :
  bind (Normal a) k = k a.
Proof. reflexivity. Qed.

Lemma flag_update (flag c : bool) :
  (if negb c then false else flag) = flag && c.
Proof. now destruct flag, c. Qed.

Lemma scalarStep_extend (p : Param.t) (acc : Acc) :
  In p allParams -> Param.isRange p = false ->
  scalarStep st p acc = Normal (extend (rowOf st p) (pointsOf st p) acc).
Proof.
  intros Hp Hr. destruct (limit_shape st p Hp) as (limit & Hl & Hs).
  unfold scalarStep, rowOf, pointsOf, extend.
  rewrite getInputValue_eq, (limitOf_eq _ _ _ Hl), Hl, Hr in *.
  inversion Hs; subst.
  generalize (inputValue st (Param.id p)). intros value.
  unfold classify, addResult, limitDisplayOf, pushChart; simpl.
  destruct (notNull value); simpl;
    rewrite ?flag_update, ?andb_true_r, ?andb_false_r, ?app_nil_r;
      reflexivity.
Qed.

Lemma conventionalStep_extend (p : Param.t) (acc : Acc) :
  In p allParams ->
  conventionalStep st p acc
  = Normal (extend (rowOf st p) (pointsOf st p) acc).
Proof.
  intros Hp. destruct (limit_shape st p Hp) as (limit & Hl & Hs).
  unfold conventionalStep, rowOf, pointsOf, extend.
  rewrite getInputValue_eq, (limitOf_eq _ _ _ Hl), Hl.
  generalize (inputValue st (Param.id p)). intros value.
  inversion Hs as [x Hx Hr|lo hi Hr]; subst;
    unfold classify, addResult, limitDisplayOf, pushChart, field; simpl;
    rewrite ?andb_true_r.
  - destruct (notNull value); simpl;
      rewrite ?flag_update, ?andb_true_r, ?andb_false_r, ?app_nil_r;
      reflexivity.
  - destruct (notNull value); simpl;
      [|now rewrite ?andb_true_r, ?app_nil_r].
    destruct (js_ge value (JNumber lo)); simpl;
      rewrite ?flag_update, ?andb_true_r, ?andb_false_r, ?app_nil_r;
      reflexivity.
Qed.

Lemma sludgeStep_extend (p : Param.t) (acc : Acc) :
  In p allParams ->
  sludgeStep st p acc = Normal (extend (rowOf st p) [] acc).
Proof.
  intros Hp. destruct (limit_shape st p Hp) as (limit & Hl & Hs).
  unfold sludgeStep, rowOf, extend.
  rewrite getInputValue_eq, (limitOf_eq _ _ _ Hl), Hl.
  generalize (inputValue st (Param.id p)). intros value.
  inversion Hs as [x Hx Hr|lo hi Hr]; subst;
    unfold classify, addResult, limitDisplayOf, field; simpl;
    rewrite ?andb_true_r, ?app_nil_r.
  - destruct (notNull value); simpl;
      rewrite ?flag_update, ?andb_true_r, ?andb_false_r, ?app_nil_r;
      reflexivity.
  - destruct (notNull value); simpl;
      [|now rewrite ?andb_true_r, ?app_nil_r].
    destruct (js_ge value (JNumber lo)); simpl;
      rewrite ?flag_update, ?andb_true_r, ?andb_false_r, ?app_nil_r;
      reflexivity.
Qed.

(** A loop whose callback adds one row and some points per element. *)
Lemma forEach_extend (points : Param.t -> list ChartPoint.t)
  (callback : Param.t -> Acc -> completion Acc) (ps : list Param.t) :
  (forall p, In p ps -> forall acc,
      callback p acc = Normal (extend (rowOf st p) (points p) acc)) ->
  forall acc,
    forEach ps callback acc
    = Normal (mkAcc (newResults acc ++ map (rowOf st) ps)
                (allCompliant acc
                 && forallb Result.isCompliant (map (rowOf st) ps))
                (newChartData acc ++ flat_map points ps)).
Proof.
  induction ps as [|p ps IH]; intros Hstep acc; simpl.
  - rewrite !app_nil_r, andb_true_r. now destruct acc.
  - rewrite (Hstep p (or_introl eq_refl)). simpl.
    rewrite IH by (intros q Hq; apply Hstep; now right).
    unfold extend; simpl.
    now rewrite <- !app_assoc, andb_assoc.
Qed.

(** What the four loops leave in the locals. *)
Lemma runLoops_eq :
  runLoops st
  = Normal (mkAcc (map (rowOf st) allParams)
              (forallb Result.isCompliant (map (rowOf st) allParams))
              (flat_map (pointsOf st) chartedParams)).
Proof.
  unfold runLoops.
  rewrite (forEach_extend (pointsOf st)); rewrite ?bind_normal; cbv beta.
  2:{ intros p Hp acc. apply scalarStep_extend.
      - unfold allParams. apply in_or_app. now left.
      - pose proof scalar_loops as H. rewrite forallb_forall in H.
        apply negb_true_iff, H, in_or_app. now left. }
  rewrite (forEach_extend (pointsOf st)); rewrite ?bind_normal; cbv beta.
  2:{ intros p Hp acc. apply scalarStep_extend.
      - unfold allParams. apply in_or_app. right. apply in_or_app.
        now left.
      - pose proof scalar_loops as H. rewrite forallb_forall in H.
        apply negb_true_iff, H, in_or_app. now right. }
  rewrite (forEach_extend (pointsOf st)); rewrite ?bind_normal; cbv beta.
  2:{ intros p Hp acc. apply conventionalStep_extend.
      unfold allParams. do 2 (apply in_or_app; right).
      apply in_or_app. now left. }
  rewrite (forEach_extend (fun _ => [])); rewrite ?bind_normal; cbv beta.
  2:{ intros p Hp acc. apply sludgeStep_extend.
      unfold allParams. do 3 (apply in_or_app; right). exact Hp. }
  cbn [newResults allCompliant newChartData].
  unfold allParams, chartedParams.
  rewrite !map_app, !forallb_app, !flat_map_app.
  replace (flat_map (fun _ : Param.t => []) sludgeParams)
    with (@nil ChartPoint.t) by reflexivity.
  rewrite !app_nil_l, !app_nil_r, !andb_true_l.
  now rewrite <- !app_assoc, <- !andb_assoc.
Qed.

Lemma checkCompliance_eq :
  checkCompliance st
  = Normal (App.make (App.params st) (App.industryType st)
              (App.complianceLevel st) (App.dischargeType st)
              (map (rowOf st) allParams) true
              (flat_map (pointsOf st) chartedParams)
              (forallb Result.isCompliant (map (rowOf st) allParams))).
Proof. unfold checkCompliance. now rewrite runLoops_eq. Qed.

End LoopFacts.

(** ** The limit resolver *)

Section Resolver.

Lemma getLimit_absent (st : App.t) : getLimit st JUndefined = Normal JNull.
Proof. reflexivity. Qed.

Lemma getLimit_onlyF (st : App.t) (f : jsval) :
  defined f = true -> getLimit st (onlyF f) = Normal f.
Proof.
  intros Hf. unfold getLimit, onlyF.
  destruct (App.industryType st), (App.complianceLevel st); simpl;
    rewrite ?Hf; simpl; rewrite ?Hf; reflexivity.
Qed.

Lemma getLimit_onlyF_undefined (st : App.t) :
  getLimit st (onlyF JUndefined) = Normal JNull.
Proof.
  unfold getLimit.
  destruct (App.industryType st), (App.complianceLevel st); reflexivity.
Qed.

Lemma staticSpecs_agree (st : App.t) (spec : jsval) :
  In spec staticSpecs ->
  getLimit st spec
  = Normal (orNull (resolveLimit (Some spec) (App.industryType st)
                      (App.complianceLevel st))).
Proof.
  intros H. rewrite getLimit_context.
  destruct (App.industryType st), (App.complianceLevel st);
    cbv [staticSpecs complianceLimits flat_map map snd app In] in H;
    repeat (destruct H as [H|H]; [subst spec; vm_compute; reflexivity|]);
    contradiction.
Qed.

End Resolver.

(** C1. For every limit spec of the static table, and for an absent spec,
    with every industry and every tier, [getLimit] returns what the
    algorithm of the specification returns: absent for an absent spec;
    otherwise the branch keyed by the industry if the spec has one, else
    the spec itself, is the flat spec, and the result is its entry for the
    tier, else its [F] entry, else absent. *)
Theorem getLimit_follows_resolveLimit (st : App.t) (spec : option jsval) :
  spec = None \/ (exists s, spec = Some s /\ In s staticSpecs) ->
  getLimit st (specArg spec)
  = Normal (orNull (resolveLimit spec (App.industryType st)
                      (App.complianceLevel st))).
Proof.
  intros [->|(s & -> & Hs)].
  - apply getLimit_absent.
  - now apply staticSpecs_agree.
Qed.

Lemma getLimit_follows_resolveLimit_witness :
  getLimit (context Leather Aspirational)
    (specArg (Some (industries (tiers (n "0.05") (n "0.01") (n "0.005"))
                               (tiers (n "0.15") (n "0.05") (n "0.01")))))
  = Normal (n "0.01")
  /\ getLimit (context Textile Progressive) (specArg (Some (onlyF (n "5"))))
     = Normal (n "5").
Proof.
  split.
  - rewrite getLimit_follows_resolveLimit; [reflexivity|].
    right. eexists. split; [reflexivity|].
    cbv [staticSpecs complianceLimits flat_map map snd app In]. tauto.
  - rewrite getLimit_follows_resolveLimit; [reflexivity|].
    right. eexists. split; [reflexivity|].
    cbv [staticSpecs complianceLimits flat_map map snd app In]. tauto.
Defined.

(** C4. A parameter whose entry in the static table defines only the [F]
    limit resolves to that limit for every tier and every industry; every
    MRSL parameter and every sludge parameter is such a parameter. *)
Theorem foundational_only_resolves (st : App.t) (p : Param.t) :
  In p allParams ->
  (forall f, Param.limits p = onlyF f ->
             getLimit st (Param.limits p) = Normal f)
  /\ (In p (mrslParams ++ sludgeParams) ->
      exists f, Param.limits p = onlyF f).
Proof.
  intros Hp. split.
  - intros f Hf. destruct (limit_shape st p Hp) as (limit & Hl & Hs).
    rewrite Hf in *. destruct f as [ | |x|props].
    + rewrite getLimit_onlyF_undefined in Hl. injection Hl as <-.
      inversion Hs.
    + now apply getLimit_onlyF.
    + now apply getLimit_onlyF.
    + now apply getLimit_onlyF.
  - intros H. cbv [mrslParams sludgeParams map app In] in H.
    repeat (destruct H as [H|H]; [subst p; eexists; reflexivity|]).
    contradiction.
Qed.

Lemma foundational_only_resolves_witness :
  getLimit (context Leather Aspirational)
    (Param.limits (scalarParam "mrsl" "pfos" "pfos" "PFOS" "µg/L"))
  = Normal (n "0.01").
Proof.
  apply (foundational_only_resolves (context Leather Aspirational)
           (scalarParam "mrsl" "pfos" "pfos" "PFOS" "µg/L")).
  - cbv [allParams mrslParams map app In]. tauto.
  - reflexivity.
Defined.

(** ** The check action *)

Section CheckFacts.

Lemma Forall2_map_of {A B} (P : A -> B -> Prop) (f : A -> B) (l : list A) :
  (forall a, In a l -> P a (f a)) -> Forall2 P l (map f l).
Proof.
  induction l as [|a l IH]; intros H; simpl; constructor.
  - apply H. now left.
  - apply IH. intros b Hb. apply H. now right.
Qed.

Lemma inputValue_of (st : App.t) (id : string) (value : jsval) :
  getInputValue st id = Normal value -> inputValue st id = value.
Proof. rewrite getInputValue_eq. now intros [= ->]. Qed.

(** The row of a parameter classifies it by the IEEE order. *)
Lemma rowOf_compliant (st : App.t) (p : Param.t) (v : Number.t)
  (limit : jsval) :
  In p allParams ->
  getInputValue st (Param.id p) = Normal (JNumber v) ->
  getLimit st (Param.limits p) = Normal limit ->
  if Param.isRange p then
    exists lo hi,
      limit = range (JNumber lo) (JNumber hi)
      /\ Result.isCompliant (rowOf st p)
         = Number.leb lo v && Number.leb v hi
  else
    exists x,
      limit = JNumber x
      /\ Number.ltb Number.posZero x = true
      /\ Result.isCompliant (rowOf st p) = Number.leb v x.
Proof.
  intros Hp Hv Hl. destruct (limit_shape st p Hp) as (l & Hl' & Hs).
  rewrite Hl in Hl'. injection Hl' as <-.
  unfold rowOf; cbn [Result.isCompliant].
  rewrite (inputValue_of _ _ _ Hv), (limitOf_eq _ _ _ Hl).
  inversion Hs as [x Hx Hr|lo hi Hr]; subst limit.
  - exists x. repeat split; [exact Hx|].
    unfold classify; simpl. apply js_le_number.
  - exists lo, hi. split; [reflexivity|].
    unfold classify, field; simpl.
    now rewrite js_ge_number, js_le_number.
Qed.

Lemma rowOf_default (st : App.t) (p : Param.t) :
  inputValue st (Param.id p) = JNull \/ limitOf st p = JNull ->
  Result.isCompliant (rowOf st p) = true.
Proof.
  unfold rowOf, classify; cbn [Result.isCompliant].
  intros [-> | ->]; [reflexivity|]. now rewrite andb_false_r.
Qed.

Lemma inputValue_empty (st : App.t) (id : string) :
  paramText st id = [] -> inputValue st id = JNull.
Proof. unfold inputValue. now intros ->. Qed.

End CheckFacts.

(** C2. A check action classifies every parameter whose measured value and
    resolved limit are both present by the order on numbers: a range
    parameter is compliant exactly when [min <= value <= max], any other
    parameter exactly when [value <= limit], so that a value equal to the
    limit is compliant. *)
Theorem classification_by_limit (st : App.t) :
  exists st',
    checkCompliance st = Normal st'
    /\ Forall2
         (fun p r =>
            forall v limit,
              getInputValue st (Param.id p) = Normal (JNumber v) ->
              getLimit st (Param.limits p) = Normal limit ->
              limit <> JNull ->
              if Param.isRange p then
                exists lo hi,
                  limit = range (JNumber lo) (JNumber hi)
                  /\ Result.isCompliant r
                     = Number.leb lo v && Number.leb v hi
              else
                exists x,
                  limit = JNumber x
                  /\ Result.isCompliant r = Number.leb v x
                  /\ (v = x -> Result.isCompliant r = true))
         allParams (App.results st').
Proof.
  eexists. split; [apply checkCompliance_eq|]. cbn [App.results].
  apply Forall2_map_of. intros p Hp v limit Hv Hl _.
  pose proof (rowOf_compliant st p v limit Hp Hv Hl) as H.
  destruct (Param.isRange p); [exact H|].
  destruct H as (x & -> & Hx & H). exists x.
  split; [reflexivity|]. split; [exact H|].
  intros ->. rewrite H. now apply positive_le_self.
Qed.

(** C3. A check action classifies as compliant every parameter whose parsed
    value is absent or whose resolved limit is absent; the value of an
    empty field is absent, so a parameter whose field is empty is compliant
    whatever its limit. *)
Theorem absent_is_compliant (st : App.t) :
  exists st',
    checkCompliance st = Normal st'
    /\ Forall2
         (fun p r =>
            (forall value limit,
                getInputValue st (Param.id p) = Normal value ->
                getLimit st (Param.limits p) = Normal limit ->
                value = JNull \/ limit = JNull ->
                Result.isCompliant r = true)
            /\ (paramText st (Param.id p) = [] ->
                getInputValue st (Param.id p) = Normal JNull
                /\ Result.isCompliant r = true))
         allParams (App.results st').
Proof.
  eexists. split; [apply checkCompliance_eq|]. cbn [App.results].
  apply Forall2_map_of. intros p Hp. split.
  - intros value limit Hv Hl H. apply rowOf_default.
    rewrite (inputValue_of _ _ _ Hv), (limitOf_eq _ _ _ Hl). exact H.
  - intros He. split.
    + rewrite getInputValue_eq. now rewrite inputValue_empty.
    + apply rowOf_default. left. now apply inputValue_empty.
Qed.

(** The flag of a parameter's row is false exactly when the parameter is
    out of its limit. *)
Lemma rowOf_flag (st : App.t) (p : Param.t) :
  In p allParams ->
  Result.isCompliant (rowOf st p) = false <-> outOfLimit st p.
Proof.
  intros Hp. destruct (limit_shape st p Hp) as (limit & Hl & Hs). split.
  - intros Hflag.
    destruct (Number.isNaN (ParseFloat.parseFloat (paramText st (Param.id p))))
      eqn:E.
    + rewrite rowOf_default in Hflag; [discriminate|].
      left. unfold inputValue. now rewrite E.
    + assert (Hv : getInputValue st (Param.id p)
                   = Normal (JNumber (ParseFloat.parseFloat
                                        (paramText st (Param.id p)))))
        by (unfold getInputValue; now rewrite E).
      pose proof (rowOf_compliant st p _ limit Hp Hv Hl) as H.
      eexists _, limit. split; [exact Hv|]. split; [exact Hl|].
      destruct (Param.isRange p).
      * destruct H as (lo & hi & -> & H). exists lo, hi.
        split; [reflexivity|]. now rewrite <- H.
      * destruct H as (x & -> & _ & H). exists x.
        split; [reflexivity|]. now rewrite <- H.
  - intros (v & limit' & Hv & Hl' & Hout).
    pose proof (rowOf_compliant st p v limit' Hp Hv Hl') as H.
    destruct (Param.isRange p).
    + destruct H as (lo & hi & -> & ->).
      destruct Hout as (lo' & hi' & [= <- <-] & Hout). exact Hout.
    + destruct H as (x & -> & _ & ->).
      destruct Hout as (x' & [= <-] & Hout). exact Hout.
Qed.

(** C6. A check action leaves one compliant flag per parameter, false
    exactly for a parameter whose measured value is outside its limit, and
    its overall flag is the conjunction of these flags: it is false exactly
    when some result is not compliant, that is when some parameter is out
    of its limit, and it is true when every parameter has an absent value,
    as when every field is empty. *)
Theorem overall_is_conjunction (st : App.t) :
  exists st',
    checkCompliance st = Normal st'
    /\ Forall2
         (fun p r =>
            Result.paramName r = Param.name p
            /\ (Result.isCompliant r = false <-> outOfLimit st p))
         allParams (App.results st')
    /\ App.overallCompliant st'
       = forallb Result.isCompliant (App.results st')
    /\ (App.overallCompliant st' = false <->
        exists r, In r (App.results st') /\ Result.isCompliant r = false)
    /\ (App.overallCompliant st' = false <->
        exists p, In p allParams /\ outOfLimit st p)
    /\ ((forall p, In p allParams ->
                   getInputValue st (Param.id p) = Normal JNull) ->
        App.overallCompliant st' = true)
    /\ ((forall p, In p allParams -> paramText st (Param.id p) = []) ->
        App.overallCompliant st' = true).
Proof.
  eexists. split; [apply checkCompliance_eq|].
  cbn [App.results App.overallCompliant].
  assert (Hdefault :
    (forall p, In p allParams -> inputValue st (Param.id p) = JNull) ->
    forallb Result.isCompliant (map (rowOf st) allParams) = true).
  { intros H. apply forallb_forall. intros r Hr.
    apply in_map_iff in Hr as (p & <- & Hp).
    apply rowOf_default. left. now apply H. }
  assert (Hsome :
    forallb Result.isCompliant (map (rowOf st) allParams) = false <->
    exists r, In r (map (rowOf st) allParams)
              /\ Result.isCompliant r = false).
  { split.
    - intros H.
      destruct (existsb (fun r => negb (Result.isCompliant r))
                  (map (rowOf st) allParams)) eqn:E.
      + apply existsb_exists in E as (r & Hr & Hc).
        exists r. split; [exact Hr|]. now apply negb_true_iff.
      + exfalso. rewrite <- not_true_iff_false in H. apply H.
        apply forallb_forall. intros r Hr.
        rewrite <- not_true_iff_false in E.
        destruct (Result.isCompliant r) eqn:Hc; [reflexivity|].
        exfalso. apply E. apply existsb_exists. exists r.
        now rewrite Hc.
    - intros (r & Hr & Hc). apply not_true_iff_false. intros H.
      rewrite forallb_forall in H. rewrite (H r Hr) in Hc. discriminate. }
  split; [|split; [reflexivity|split; [exact Hsome|split; [|split]]]].
  - apply Forall2_map_of. intros p Hp.
    split; [reflexivity|now apply rowOf_flag].
  - rewrite Hsome. split.
    + intros (r & Hr & Hc). apply in_map_iff in Hr as (p & <- & Hp).
      exists p. split; [exact Hp|]. now apply rowOf_flag.
    + intros (p & Hp & Hout). exists (rowOf st p).
      split; [now apply in_map|now apply rowOf_flag].
  - intros H. apply Hdefault. intros p Hp.
    now apply inputValue_of, H.
  - intros H. apply Hdefault. intros p Hp.
    now apply inputValue_empty, H.
Qed.

(** C9. A check action completes normally for every state, with one result
    per defined parameter, 45 in all, in the order of the declarations:
    the MRSL parameters, the heavy metals, the conventional parameters,
    the sludge parameters. *)
Theorem one_result_per_parameter (st : App.t) :
  exists st',
    checkCompliance st = Normal st'
    /\ map Result.paramName (App.results st')
       = map Param.name
           (mrslParams ++ heavyMetalParams ++ conventionalParams
            ++ sludgeParams)
    /\ List.length (App.results st') = 45%nat.
Proof.
  eexists. split; [apply checkCompliance_eq|]. cbn [App.results].
  split.
  - rewrite map_map. reflexivity.
  - rewrite length_map. reflexivity.
Qed.

(** C10. Every scalar limit the table gives is above zero, so a check
    action classifies as compliant every parameter that is not a range
    parameter and whose measured value is below zero. *)
Theorem negative_is_compliant (st : App.t) :
  exists st',
    checkCompliance st = Normal st'
    /\ Forall2
         (fun p r =>
            Param.isRange p = false ->
            (exists x,
                getLimit st (Param.limits p) = Normal (JNumber x)
                /\ Number.ltb Number.posZero x = true)
            /\ (forall v,
                   getInputValue st (Param.id p) = Normal (JNumber v) ->
                   Number.ltb v Number.posZero = true ->
                   Result.isCompliant r = true))
         allParams (App.results st').
Proof.
  eexists. split; [apply checkCompliance_eq|]. cbn [App.results].
  apply Forall2_map_of. intros p Hp Hr.
  destruct (limit_shape st p Hp) as (limit & Hl & Hs).
  rewrite Hr in Hs. inversion Hs as [x Hx E|]; subst limit.
  split; [now exists x|].
  intros v Hv Hneg.
  pose proof (rowOf_compliant st p v _ Hp Hv Hl) as H. rewrite Hr in H.
  destruct H as (y & [= <-] & _ & ->).
  now apply negative_le_positive.
Qed.

(** ** The chart series *)

Section ChartFacts.

Lemma ids_distinct : NoDup (map Param.id allParams).
Proof.
  cbv [allParams mrslParams heavyMetalParams conventionalParams
       sludgeParams map app scalarParam rangeParam Param.id].
  repeat (constructor; [cbv [In]; intuition discriminate|]).
  constructor.
Qed.

Lemma NoDup_map_injective {A B} (f : A -> B) (l : list A) :
  NoDup (map f l) ->
  forall a b, In a l -> In b l -> f a = f b -> a = b.
Proof.
  induction l as [|x l IH]; simpl; intros Hnd a b Ha Hb E; [tauto|].
  inversion Hnd as [|y ys Hx Hl]; subst.
  destruct Ha as [<-|Ha], Hb as [<-|Hb]; try reflexivity.
  - exfalso. apply Hx. rewrite E. now apply in_map.
  - exfalso. apply Hx. rewrite <- E. now apply in_map.
  - now apply IH.
Qed.

Lemma id_determines (p q : Param.t) :
  In p allParams -> In q allParams -> Param.id p = Param.id q -> p = q.
Proof. apply NoDup_map_injective, ids_distinct. Qed.

Lemma allParams_split (p : Param.t) :
  In p allParams <-> In p chartedParams \/ In p sludgeParams.
Proof.
  unfold allParams, chartedParams. rewrite !in_app_iff. tauto.
Qed.

Lemma NoDup_app_disjoint {A} (l1 l2 : list A) (k : A) :
  NoDup (l1 ++ l2) -> In k l1 -> In k l2 -> False.
Proof.
  induction l1 as [|y l1 IH]; simpl; intros H H1 H2; [contradiction|].
  inversion H as [|? ? Hy Hrest]; subst.
  destruct H1 as [->|H1].
  - apply Hy, in_or_app. now right.
  - now apply IH.
Qed.

Lemma charted_not_sludge (p : Param.t) :
  In p chartedParams -> ~ In p sludgeParams.
Proof.
  intros Hc Hs. pose proof ids_distinct as H.
  replace allParams with (chartedParams ++ sludgeParams) in H
    by (unfold allParams, chartedParams; now rewrite <- !app_assoc).
  rewrite map_app in H.
  apply (NoDup_app_disjoint _ _ (Param.id p) H); now apply in_map.
Qed.

Lemma pointsOf_id (st : App.t) (p : Param.t) (pt : ChartPoint.t) :
  In pt (pointsOf st p) -> ChartPoint.id pt = Param.id p.
Proof.
  unfold pointsOf.
  destruct (notNull _ && notNull _), (Param.isRange p); simpl;
    intros H; try contradiction; destruct H as [<-|[]]; reflexivity.
Qed.

Lemma notNull_iff (v : jsval) : notNull v = true <-> v <> JNull.
Proof. destruct v; simpl; split; congruence. Qed.

End ChartFacts.

(** C7. The chart series of a check action has a point for a parameter
    exactly when its parsed value and its resolved limit are both present
    and it is not a sludge parameter.  The point of a range parameter has
    the maximum bound as its limit and carries the minimum bound. *)
Theorem chart_series_points (st : App.t) :
  exists st',
    checkCompliance st = Normal st'
    /\ forall p,
        In p allParams ->
        ((exists pt,
             In pt (App.chartData st')
             /\ ChartPoint.id pt = Param.id p) <->
         ((exists value,
              getInputValue st (Param.id p) = Normal value
              /\ value <> JNull)
          /\ (exists limit,
                 getLimit st (Param.limits p) = Normal limit
                 /\ limit <> JNull)
          /\ ~ In p sludgeParams))
        /\ (Param.isRange p = true ->
            forall pt,
              In pt (App.chartData st') ->
              ChartPoint.id pt = Param.id p ->
              exists lo hi,
                getLimit st (Param.limits p) = Normal (range lo hi)
                /\ ChartPoint.limit pt = hi
                /\ ChartPoint.minLimit pt = Some lo).
Proof.
  eexists. split; [apply checkCompliance_eq|]. cbn [App.chartData].
  intros p Hp.
  destruct (limit_shape st p Hp) as (limit & Hl & Hs).
  assert (Hown : forall pt,
             In pt (flat_map (pointsOf st) chartedParams) ->
             ChartPoint.id pt = Param.id p ->
             In p chartedParams /\ In pt (pointsOf st p)).
  { intros pt Hpt Hid. apply in_flat_map in Hpt as (q & Hq & Hpt).
    assert (q = p) as ->; [|now split].
    apply id_determines; [apply allParams_split; now left|exact Hp|].
    now rewrite <- (pointsOf_id st q pt Hpt). }
  split; [split|].
  - intros (pt & Hpt & Hid). destruct (Hown pt Hpt Hid) as (Hc & Hin).
    unfold pointsOf in Hin. rewrite (limitOf_eq _ _ _ Hl) in Hin.
    destruct (notNull (inputValue st (Param.id p))) eqn:Hv;
      [|contradiction].
    destruct (notNull limit) eqn:Hn; [|contradiction].
    split; [|split].
    + exists (inputValue st (Param.id p)).
      split; [apply getInputValue_eq|now apply notNull_iff].
    + exists limit. split; [exact Hl|now apply notNull_iff].
    + now apply charted_not_sludge.
  - intros ((value & Hv & Hvn) & (limit' & Hl' & Hln) & Hns).
    rewrite Hl in Hl'. injection Hl' as <-.
    apply inputValue_of in Hv. apply notNull_iff in Hvn, Hln.
    assert (Hc : In p chartedParams)
      by (apply allParams_split in Hp; tauto).
    assert (Hne : exists pt, In pt (pointsOf st p)).
    { unfold pointsOf. rewrite Hv, (limitOf_eq _ _ _ Hl), Hvn, Hln.
      destruct (Param.isRange p); eexists; now left. }
    destruct Hne as (pt & Hpt). exists pt. split.
    + apply in_flat_map. now exists p.
    + now apply pointsOf_id in Hpt.
  - intros Hr pt Hpt Hid. destruct (Hown pt Hpt Hid) as (_ & Hin).
    rewrite Hr in Hs. inversion Hs as [|lo hi E]; subst limit.
    exists (JNumber lo), (JNumber hi). split; [exact Hl|].
    unfold pointsOf in Hin. rewrite (limitOf_eq _ _ _ Hl), Hr in Hin.
    destruct (notNull _ && notNull _); [|contradiction].
    destruct Hin as [<-|[]]. split; reflexivity.
Qed.

(** C8. Two states with the same inputs, industry and compliance tier give
    the same results, the same overall flag and the same chart series,
    whatever their discharge types. *)
Theorem dischargeType_is_unused (st1 st2 : App.t) :
  App.params st1 = App.params st2 ->
  App.industryType st1 = App.industryType st2 ->
  App.complianceLevel st1 = App.complianceLevel st2 ->
  exists st1' st2',
    checkCompliance st1 = Normal st1'
    /\ checkCompliance st2 = Normal st2'
    /\ App.results st1' = App.results st2'
    /\ App.overallCompliant st1' = App.overallCompliant st2'
    /\ App.chartData st1' = App.chartData st2'.
Proof.
  intros Hp Hi Hl.
  assert (Hrow : forall p, rowOf st1 p = rowOf st2 p).
  { intros p. unfold rowOf, inputValue, paramText, limitOf.
    rewrite (getLimit_context st1), (getLimit_context st2).
    now rewrite Hp, Hi, Hl. }
  assert (Hpts : forall p, pointsOf st1 p = pointsOf st2 p).
  { intros p. unfold pointsOf, inputValue, paramText, limitOf.
    rewrite (getLimit_context st1), (getLimit_context st2).
    now rewrite Hp, Hi, Hl. }
  do 2 eexists. split; [apply checkCompliance_eq|].
  split; [apply checkCompliance_eq|].
  cbn [App.results App.overallCompliant App.chartData].
  rewrite (map_ext _ _ Hrow), (flat_map_ext _ _ Hpts). repeat split.
Qed.

(** ** The value parser *)

Section RoundingFacts.

Lemma shr_1_nonneg (mrs : shr_record) :
  0 <= shr_m mrs -> 0 <= shr_m (shr_1 mrs).
Proof.
  destruct mrs as [m r s]; simpl.
  destruct m as [|[q|q|]|q]; simpl; lia.
Qed.

Lemma iter_shr_1_nonneg (k : positive) :
  forall mrs, 0 <= shr_m mrs -> 0 <= shr_m (iter_pos shr_1 k mrs).
Proof.
  induction k as [k IH|k IH|]; intros mrs H; simpl.
  - apply IH, IH, shr_1_nonneg, H.
  - apply IH, IH, H.
  - apply shr_1_nonneg, H.
Qed.

Lemma shr_fexp_nonneg (m e : Z) (l : location) :
  0 <= m -> 0 <= shr_m (fst (shr_fexp Number.prec Number.emax m e l)).
Proof.
  intros H. unfold shr_fexp, shr.
  assert (H0 : 0 <= shr_m (shr_record_of_loc m l))
    by (destruct l as [|[ | | ]]; exact H).
  destruct (_ - e); simpl; [exact H0| |exact H0].
  now apply iter_shr_1_nonneg.
Qed.

Lemma round_nearest_even_nonneg (m : Z) (l : location) :
  0 <= m -> 0 <= round_nearest_even m l.
Proof.
  intros H. destruct l as [|[ | | ]]; simpl; try lia.
  destruct (Z.even m); lia.
Qed.

Lemma binary_round_aux_number (s : bool) (m e : Z) (l : location) :
  0 <= m ->
  Number.isNaN (binary_round_aux Number.prec Number.emax s m e l) = false.
Proof.
  intros H. unfold binary_round_aux.
  pose proof (shr_fexp_nonneg m e l H) as H1.
  destruct (shr_fexp Number.prec Number.emax m e l) as [mrs' e'].
  simpl in H1.
  pose proof (shr_fexp_nonneg _ e' loc_Exact
                (round_nearest_even_nonneg _ (loc_of_shr_record mrs') H1))
    as H2.
  destruct (shr_fexp Number.prec Number.emax
              (round_nearest_even (shr_m mrs') (loc_of_shr_record mrs'))
              e' loc_Exact) as [mrs'' e''].
  simpl in H2. destruct (shr_m mrs'') as [|q|q]; [reflexivity| |lia].
  destruct (e'' <=? _); reflexivity.
Qed.

Lemma ofDecimal_number (neg : bool) (m : N) (e : Z) :
  Number.isNaN (Number.ofDecimal neg m e) = false.
Proof.
  unfold Number.ofDecimal. destruct m as [|q]; [reflexivity|].
  assert (Hround : forall mx,
    Number.isNaN (binary_round Number.prec Number.emax neg mx 0) = false).
  { intros mx. unfold binary_round.
    destruct (shl_align _ _ _) as [mz ez].
    apply binary_round_aux_number. lia. }
  destruct e as [|k|k]; [apply Hround|apply Hround|].
  unfold SFdiv_core_binary.
  set (d := 10 ^ Z.pos k). set (m' := match _ with 0 => _ | _ => _ end).
  assert (Hd : 0 < d) by (apply Z.pow_pos_nonneg; lia).
  assert (Hm : 0 <= m').
  { subst m'. destruct (_ - _); [lia| |lia].
    apply Z.shiftl_nonneg. lia. }
  pose proof (Z.div_pos m' d Hm Hd) as Hq.
  unfold Z.div in Hq. destruct (Z.div_eucl m' d) as [qu r].
  apply binary_round_aux_number, Hq.
Qed.

End RoundingFacts.

Section ParserFacts.

Import ParseFloat.
Local Open Scope N_scope.

Lemma trimStart_split (s : jsstring) :
  exists ws, s = ws ++ trimStart s /\ forallb isWhiteSpace ws = true.
Proof.
  induction s as [|c s (ws & Hs & Hws)]; simpl.
  - now exists [].
  - destruct (isWhiteSpace c) eqn:E.
    + exists (c :: ws). simpl. rewrite E, Hws. split; [|reflexivity].
      now f_equal.
    + now exists [].
Qed.

Lemma trimStart_app (ws : jsstring) (c : N) (x : jsstring) :
  forallb isWhiteSpace ws = true -> isWhiteSpace c = false ->
  trimStart (ws ++ c :: x) = c :: x.
Proof.
  intros Hws Hc. induction ws as [|w ws IH]; simpl.
  - now rewrite Hc.
  - simpl in Hws. apply andb_prop in Hws as [Hw Hws].
    rewrite Hw. now apply IH.
Qed.

Lemma spanDigits_split (s : jsstring) :
  s = fst (spanDigits s) ++ snd (spanDigits s)
  /\ forallb isDigit (fst (spanDigits s)) = true.
Proof.
  induction s as [|c s [Hs Hd]]; simpl; [now split|].
  destruct (isDigit c) eqn:E; [|now split].
  destruct (spanDigits s) as [ds rest]; simpl in *.
  rewrite E, Hd. split; [now f_equal|reflexivity].
Qed.

Lemma spanDigits_digit (c : N) (s : jsstring) :
  isDigit c = true -> fst (spanDigits (c :: s)) <> [].
Proof.
  intros E. simpl. rewrite E. now destruct (spanDigits s).
Qed.

Lemma spanDigits_point (x : jsstring) :
  spanDigits (46 :: x) = ([], 46 :: x).
Proof. reflexivity. Qed.

Lemma startsWith_split (p s : jsstring) :
  startsWith p s = true -> exists rest, s = p ++ rest.
Proof.
  revert s. induction p as [|a p IH]; intros s H; simpl in *.
  - now exists s.
  - destruct s as [|b s]; [discriminate|].
    apply andb_prop in H as [Hab H]. apply N.eqb_eq in Hab as ->.
    destruct (IH s H) as (rest & ->). now exists rest.
Qed.

Lemma startsWith_app (p rest : jsstring) : startsWith p (p ++ rest) = true.
Proof.
  induction p as [|a p IH]; simpl; [reflexivity|].
  now rewrite N.eqb_refl, IH.
Qed.

Lemma sign_split (t : jsstring) :
  t = snd (sign t) \/ t = 43 :: snd (sign t) \/ t = 45 :: snd (sign t).
Proof.
  destruct t as [|c t]; simpl; [now left|].
  destruct (c =? 43) eqn:E1; [apply N.eqb_eq in E1 as ->; tauto|].
  destruct (c =? 45) eqn:E2; [apply N.eqb_eq in E2 as ->; tauto|].
  now left.
Qed.

(** A digit is none of the other characters the parser looks for. *)
Lemma digit_other (c : N) :
  isDigit c = true ->
  isWhiteSpace c = false /\ (c =? 43) = false /\ (c =? 45) = false.
Proof.
  unfold isDigit. intros H. apply andb_prop in H as [H1 H2].
  apply N.leb_le in H1, H2.
  assert (Hc : c = 48 \/ c = 49 \/ c = 50 \/ c = 51 \/ c = 52 \/ c = 53
               \/ c = 54 \/ c = 55 \/ c = 56 \/ c = 57) by lia.
  repeat (destruct Hc as [->|Hc]; [now repeat split|]).
  subst c. now repeat split.
Qed.

Lemma digits_head (ds : jsstring) :
  DecimalDigits ds ->
  exists c ds', ds = c :: ds' /\ isDigit c = true.
Proof.
  intros [Hne Hd]. destruct ds as [|c ds']; [contradiction|].
  simpl in Hd. apply andb_prop in Hd as [Hc _]. now exists c, ds'.
Qed.

(** The first character of an unsigned literal. *)
Lemma unsigned_head (u : jsstring) :
  StrUnsignedDecimalLiteral u ->
  exists c u', u = c :: u' /\ (isDigit c = true \/ c = 46 \/ c = 73).
Proof.
  intros [ |ip fp ex Hip _ _|fp ex _ _|ip ex Hip _].
  - eexists _, _. split; [reflexivity|]. now right; right.
  - destruct (digits_head ip Hip) as (c & ip' & -> & Hc).
    eexists _, _. split; [reflexivity|]. now left.
  - eexists _, _. split; [reflexivity|]. now right; left.
  - destruct (digits_head ip Hip) as (c & ip' & -> & Hc).
    eexists _, _. split; [reflexivity|]. now left.
Qed.

Lemma readUnsigned_sound (neg : bool) (u : jsstring) :
  Number.isNaN (readUnsigned neg u) = false ->
  exists lit rest, u = lit ++ rest /\ StrUnsignedDecimalLiteral lit.
Proof.
  unfold readUnsigned.
  destruct (startsWith (str "Infinity") u) eqn:Einf.
  { intros _. apply startsWith_split in Einf as (rest & ->).
    exists (str "Infinity"), rest. split; [reflexivity|constructor]. }
  destruct (spanDigits_split u) as [Hu Hd].
  destruct (spanDigits u) as [ip r1]; simpl in Hu, Hd.
  destruct ip as [|d ip].
  - simpl in Hu. subst r1.
    destruct u as [|c r]; [discriminate|].
    destruct (c =? 46) eqn:Ec; [|discriminate].
    apply N.eqb_eq in Ec as ->.
    destruct (spanDigits_split r) as [Hr Hfp].
    destruct (spanDigits r) as [fp r2]; simpl in Hr, Hfp.
    destruct fp as [|f fp]; [discriminate|]. intros _.
    exists (46 :: (f :: fp) ++ []), r2. split.
    + rewrite app_nil_r. simpl. now rewrite Hr.
    + apply Literal_fraction; [split; [discriminate|exact Hfp]|now left].
  - intros _. exists ((d :: ip) ++ []), r1. split.
    + now rewrite app_nil_r.
    + apply Literal_integer; [split; [discriminate|exact Hd]|now left].
Qed.

Lemma readUnsigned_complete (neg : bool) (lit rest : jsstring) :
  StrUnsignedDecimalLiteral lit ->
  Number.isNaN (readUnsigned neg (lit ++ rest)) = false.
Proof.
  intros Hlit. unfold readUnsigned.
  destruct (startsWith (str "Infinity") (lit ++ rest)) eqn:Einf;
    [reflexivity|].
  assert (Hdigits : forall c x,
    isDigit c = true ->
    Number.isNaN
      (let (ip, r1) := spanDigits (c :: x) in
       let (fp, r2) :=
         match r1 with
         | c :: r => if c =? 46 then spanDigits r else ([], r1)
         | [] => ([], r1)
         end in
       match ip ++ fp with
       | [] => Number.NaN
       | ds => Number.ofDecimal neg (digitsValue ds)
                 (exponent r2 - Z.of_nat (List.length fp))
       end) = false).
  { intros c x Hc. pose proof (spanDigits_digit c x Hc) as Hne.
    destruct (spanDigits (c :: x)) as [ip r1]; simpl in Hne.
    destruct (match r1 with [] => _ | _ => _ end) as [fp r2].
    destruct ip as [|d ip]; [contradiction|]. simpl.
    apply ofDecimal_number. }
  destruct Hlit as [ |ip fp ex Hip _ _|fp ex Hfp _|ip ex Hip _].
  - now rewrite startsWith_app in Einf.
  - destruct (digits_head ip Hip) as (c & ip' & -> & Hc).
    rewrite <- !app_comm_cons. now apply Hdigits.
  - destruct (digits_head fp Hfp) as (c & fp' & -> & Hc).
    simpl app. rewrite spanDigits_point. cbv beta iota.
    rewrite N.eqb_refl.
    pose proof (spanDigits_digit c ((fp' ++ ex) ++ rest) Hc) as Hne.
    destruct (spanDigits (c :: (fp' ++ ex) ++ rest)) as [fp2 r2].
    simpl in Hne. destruct fp2 as [|d fp2]; [contradiction|]. simpl.
    apply ofDecimal_number.
  - destruct (digits_head ip Hip) as (c & ip' & -> & Hc).
    rewrite <- !app_comm_cons. now apply Hdigits.
Qed.

(** [parseFloat] gives a number exactly on the texts that, after leading
    white space, start with a literal. *)
Lemma parseFloat_number_iff (s : jsstring) :
  Number.isNaN (parseFloat s) = false <-> hasLiteralPrefix s.
Proof.
  unfold parseFloat. split.
  - destruct (trimStart_split s) as (ws & Hs & Hws).
    pose proof (sign_split (trimStart s)) as Ht.
    destruct (sign (trimStart s)) as [neg u]; simpl in Ht.
    intros H. apply readUnsigned_sound in H as (lit & rest & -> & Hlit).
    destruct Ht as [Ht|[Ht|Ht]]; rewrite Ht in Hs.
    + exists ws, lit, rest. repeat split; try assumption.
      now constructor.
    + exists ws, (43 :: lit), rest. repeat split; try assumption.
      now constructor.
    + exists ws, (45 :: lit), rest. repeat split; try assumption.
      now constructor.
  - intros (ws & lit & rest & -> & Hws & Hlit).
    destruct Hlit as [u Hu|u Hu|u Hu].
    + destruct (unsigned_head u Hu) as (c & u' & -> & Hc).
      assert (Hother : isWhiteSpace c = false
                       /\ (c =? 43) = false /\ (c =? 45) = false).
      { destruct Hc as [Hc|[->| ->]]; [now apply digit_other| |];
          now repeat split. }
      destruct Hother as (H1 & H2 & H3).
      rewrite <- !app_comm_cons, (trimStart_app ws c _ Hws H1).
      simpl sign. rewrite H2, H3, app_comm_cons.
      now apply readUnsigned_complete.
    + rewrite <- app_comm_cons, (trimStart_app ws 43 _ Hws eq_refl).
      simpl sign. now apply readUnsigned_complete.
    + rewrite <- app_comm_cons, (trimStart_app ws 45 _ Hws eq_refl).
      simpl sign. now apply readUnsigned_complete.
Qed.

Lemma digits_chars (ds : jsstring) :
  forallb isDigit ds = true -> forallb literalChar ds = true.
Proof.
  intros H. apply forallb_forall. intros c Hc.
  rewrite forallb_forall in H. unfold literalChar. now rewrite (H c Hc).
Qed.

Lemma literal_chars (lit : jsstring) :
  StrDecimalLiteral lit -> forallb literalChar lit = true.
Proof.
  assert (Hexp : forall ex,
             optional ExponentPart ex -> forallb literalChar ex = true).
  { intros ex [->|(c & si & -> & Hc & ds & [_ Hds] & Hsi)];
      [reflexivity|].
    apply digits_chars in Hds. simpl.
    destruct Hc as [-> | ->], Hsi as [->|[->| ->]]; simpl;
      now rewrite Hds. }
  assert (Hun : forall u,
             StrUnsignedDecimalLiteral u -> forallb literalChar u = true).
  { intros u [ |ip fp ex [_ Hip] Hfp Hex|fp ex [_ Hfp] Hex
              |ip ex [_ Hip] Hex]; [reflexivity| | |].
    - rewrite forallb_app. simpl. rewrite forallb_app.
      rewrite (digits_chars _ Hip), (Hexp _ Hex).
      destruct Hfp as [->|[_ Hfp]]; [reflexivity|].
      now rewrite (digits_chars _ Hfp).
    - simpl. rewrite forallb_app.
      now rewrite (digits_chars _ Hfp), (Hexp _ Hex).
    - rewrite forallb_app.
      now rewrite (digits_chars _ Hip), (Hexp _ Hex). }
  intros [u Hu|u Hu|u Hu]; simpl; now rewrite (Hun u Hu).
Qed.

End ParserFacts.

(** What [getInputValue] does with every text.  It never throws.  It
    returns a number exactly when the text, after leading white space,
    starts with a decimal literal (an optional sign, then digits with an
    optional fraction and exponent, or [Infinity]), whatever follows the
    literal; it returns absent exactly when the text does not.  So it
    returns a number for every text that is a valid number, and absent for
    the empty text. *)
Theorem getInputValue_reads_literal_prefix (st : App.t) (id : string) :
  exists r,
    getInputValue st id = Normal r
    /\ ((exists x, r = JNumber x /\ Number.isNaN x = false) <->
        hasLiteralPrefix (paramText st id))
    /\ (r = JNull <-> ~ hasLiteralPrefix (paramText st id))
    /\ (validNumber (paramText st id) -> exists x, r = JNumber x)
    /\ (paramText st id = [] -> r = JNull).
Proof.
  exists (inputValue st id). split; [apply getInputValue_eq|].
  unfold inputValue.
  pose proof (parseFloat_number_iff (paramText st id)) as Hiff.
  destruct (Number.isNaN (ParseFloat.parseFloat (paramText st id))) eqn:E.
  - assert (Hno : ~ hasLiteralPrefix (paramText st id)).
    { intros H. apply Hiff in H. discriminate. }
    repeat split.
    + intros (x & Hx & _). discriminate.
    + intros H. contradiction.
    + intros _. exact Hno.
    + intros H. exfalso. apply Hno.
      exists [], (paramText st id), []. rewrite app_nil_r. now repeat split.
  - assert (Hyes : hasLiteralPrefix (paramText st id)) by now apply Hiff.
    repeat split.
    + intros _. exact Hyes.
    + intros _. eexists. split; [reflexivity|exact E].
    + discriminate.
    + intros H. contradiction.
    + intros _. eexists. reflexivity.
    + intros H. rewrite H in E. discriminate.
Qed.

Lemma getInputValue_reads_literal_prefix_witness :
  exists r,
    getInputValue (form [("np", str " 12abc")] Textile Foundational Direct)
      "np" = Normal r
    /\ exists x, r = JNumber x /\ Number.isNaN x = false.
Proof.
  destruct (getInputValue_reads_literal_prefix
              (form [("np", str " 12abc")] Textile Foundational Direct) "np")
    as (r & Hr & Hnum & _).
  exists r. split; [exact Hr|]. apply Hnum.
  exists (str " "), (str "12"), (str "abc"). repeat split.
  apply Literal_unsigned.
  apply (Literal_integer (str "12") []); [now split|now left].
Defined.

(** The text [12abc] is not a valid number, and [getInputValue] returns
    the number 12 for it. *)
Lemma getInputValue_valid_only_counterexample :
  getInputValue (form [("np", str "12abc")] Textile Foundational Direct) "np"
  = Normal (JNumber (num "12"))
  /\ ~ validNumber
         (paramText (form [("np", str "12abc")] Textile Foundational Direct)
            "np").
Proof.
  split; [vm_compute; reflexivity|].
  intros H. apply literal_chars in H. vm_compute in H. discriminate.
Qed.

Lemma dischargeType_is_unused_witness :
  exists st1' st2',
    checkCompliance
      (form [("cadmium", str "0.02")] Textile Foundational Direct)
    = Normal st1'
    /\ checkCompliance
         (form [("cadmium", str "0.02")] Textile Foundational ZLD)
       = Normal st2'
    /\ App.results st1' = App.results st2'
    /\ App.overallCompliant st1' = App.overallCompliant st2'
    /\ App.chartData st1' = App.chartData st2'.
Proof.
  apply (dischargeType_is_unused
           (form [("cadmium", str "0.02")] Textile Foundational Direct)
           (form [("cadmium", str "0.02")] Textile Foundational ZLD));
    reflexivity.
Defined.

(** ** The theorems at concrete states *)

Lemma Forall2_at {A B} (P : A -> B -> Prop) (l1 : list A) (l2 : list B)
  (i : nat) (a : A) :
  Forall2 P l1 l2 -> nth_error l1 i = Some a ->
  exists b, nth_error l2 i = Some b /\ P a b.
Proof.
  intros H. revert i. induction H as [|x y l1 l2 Hxy _ IH]; intros i Hi.
  - destruct i; discriminate.
  - destruct i as [|i]; simpl in *.
    + injection Hi as <-. now exists y.
    + now apply IH.
Defined.

(** Cadmium 0.02 against the textile foundational limit 0.01. *)
Lemma classification_by_limit_witness :
  exists st' r,
    checkCompliance
      (form [("cadmium", str "0.02")] Textile Foundational Direct)
    = Normal st'
    /\ nth_error (App.results st') 18 = Some r
    /\ Result.isCompliant r = Number.leb (num "0.02") (num "0.01").
Proof.
  destruct (classification_by_limit
              (form [("cadmium", str "0.02")] Textile Foundational Direct))
    as (st' & Hrun & Hall).
  destruct (Forall2_at _ _ _ 18 _ Hall eq_refl) as (r & Hr & Hp).
  exists st', r. split; [exact Hrun|]. split; [exact Hr|].
  destruct (Hp (num "0.02") (n "0.01")) as (x & Hx & Hc & _).
  - reflexivity.
  - reflexivity.
  - discriminate.
  - injection Hx as <-. exact Hc.
Defined.

(** An empty field of a parameter that has a limit. *)
Lemma absent_is_compliant_witness :
  exists st' r,
    checkCompliance (form [("np", [])] Leather Progressive Indirect)
    = Normal st'
    /\ nth_error (App.results st') 0 = Some r
    /\ Result.isCompliant r = true.
Proof.
  destruct (absent_is_compliant
              (form [("np", [])] Leather Progressive Indirect))
    as (st' & Hrun & Hall).
  destruct (Forall2_at _ _ _ 0 _ Hall eq_refl) as (r & Hr & _ & Hp).
  exists st', r. split; [exact Hrun|]. split; [exact Hr|].
  now apply Hp.
Defined.

(** Cadmium 0.02 against the limit 0.01: one parameter out of its limit
    makes the overall flag false, among 45 rows. *)
Lemma overall_is_conjunction_witness :
  exists st',
    checkCompliance
      (form [("cadmium", str "0.02")] Textile Foundational Direct)
    = Normal st'
    /\ App.overallCompliant st' = false
    /\ List.length (App.results st') = 45%nat.
Proof.
  destruct (overall_is_conjunction
              (form [("cadmium", str "0.02")] Textile Foundational Direct))
    as (st' & Hrun & Hrows & _ & _ & Hout & _).
  exists st'. split; [exact Hrun|]. split.
  - apply Hout.
    exists (scalarParam "heavyMetals" "cadmium" "cadmium" "Cadmium" "mg/L").
    split.
    + cbv [allParams mrslParams heavyMetalParams map app In]. tauto.
    + exists (num "0.02"), (n "0.01").
      split; [reflexivity|]. split; [reflexivity|].
      exists (num "0.01"). split; reflexivity.
  - rewrite <- (Forall2_length Hrows). reflexivity.
Defined.

(** pH 7.5 against the textile progressive range 6 to 9. *)
Lemma chart_series_points_witness :
  exists st' pt,
    checkCompliance (form [("ph", str "7.5")] Textile Progressive Direct)
    = Normal st'
    /\ In pt (App.chartData st')
    /\ ChartPoint.id pt = "ph"
    /\ ChartPoint.limit pt = n "9"
    /\ ChartPoint.minLimit pt = Some (n "6").
Proof.
  destruct (chart_series_points
              (form [("ph", str "7.5")] Textile Progressive Direct))
    as (st' & Hrun & Hall).
  destruct (Hall (rangeParam "conventional" "ph" "ph" "pH"))
    as (Hiff & Hrange).
  { cbv [allParams mrslParams heavyMetalParams conventionalParams map app
         In]. tauto. }
  destruct Hiff as [_ Hpoint].
  destruct Hpoint as (pt & Hin & Hid).
  { split; [|split].
    - eexists. split; [reflexivity|discriminate].
    - eexists. split; [reflexivity|discriminate].
    - cbv [sludgeParams In rangeParam scalarParam]. intuition discriminate. }
  destruct (Hrange eq_refl pt Hin Hid) as (lo & hi & Hl & Hhi & Hlo).
  assert (E : getLimit (form [("ph", str "7.5")] Textile Progressive Direct)
                (Param.limits (rangeParam "conventional" "ph" "ph" "pH"))
              = Normal (range (n "6") (n "9"))) by reflexivity.
  rewrite E in Hl. injection Hl as <- <-.
  exists st', pt. repeat split; assumption.
Defined.

(** A reading of -3 for nonylphenol. *)
Lemma negative_is_compliant_witness :
  exists st' r,
    checkCompliance (form [("np", str "-3")] Textile Aspirational Direct)
    = Normal st'
    /\ nth_error (App.results st') 0 = Some r
    /\ Result.isCompliant r = true.
Proof.
  destruct (negative_is_compliant
              (form [("np", str "-3")] Textile Aspirational Direct))
    as (st' & Hrun & Hall).
  destruct (Forall2_at _ _ _ 0 _ Hall eq_refl) as (r & Hr & Hp).
  exists st', r. split; [exact Hrun|]. split; [exact Hr|].
  destruct (Hp eq_refl) as (_ & Hneg).
  apply (Hneg (num "-3")); reflexivity.
Defined.

(** ** The examples of the specification *)

Example cadmium_above_limit :
  flagsOf (form [("cadmium", str "0.02")] Textile Foundational Direct)
  = Some ([("Cadmium", false)], false).
Proof. vm_compute. reflexivity. Qed.

Example chromiumVI_at_limit :
  flagsOf (form [("chromiumVI", str "0.01")] Leather Aspirational Direct)
  = Some ([], true).
Proof. vm_compute. reflexivity. Qed.

Example ph_in_range :
  flagsOf (form [("ph", str "7.5")] Textile Progressive Direct)
  = Some ([], true).
Proof. vm_compute. reflexivity. Qed.

Example ph_below_range :
  flagsOf (form [("ph", str "5.5")] Textile Progressive Direct)
  = Some ([("pH", false)], false).
Proof. vm_compute. reflexivity. Qed.

Example ofDecimal_tenth :
  Number.ofDecimal false 1 (-1) = S754_finite false 7205759403792794 (-56).
Proof. vm_compute. reflexivity. Qed.

Example parseFloat_examples :
  ParseFloat.parseFloat (str "0.1") = S754_finite false 7205759403792794 (-56)
  /\ ParseFloat.parseFloat (str "  -7.5e0x") = num "-7.5"
  /\ ParseFloat.parseFloat (str "1.e2") = num "100"
  /\ ParseFloat.parseFloat (str ".5e") = num "0.5"
  /\ ParseFloat.parseFloat (str "12abc") = num "12"
  /\ ParseFloat.parseFloat (str "-Infinity!") = S754_infinity true
  /\ ParseFloat.parseFloat (str ".") = S754_nan
  /\ ParseFloat.parseFloat (str "e5") = S754_nan
  /\ ParseFloat.parseFloat (str "- 5") = S754_nan
  /\ ParseFloat.parseFloat [] = S754_nan
  /\ ParseFloat.parseFloat (str "1e400") = S754_infinity false
  /\ ParseFloat.parseFloat (str "-0") = S754_zero true.
Proof. vm_compute. repeat split. Qed.

(** ** The limit resolver on any spec *)

Section ResolverAnySpec.

Lemma lookup_defined {k : string} {props : list (string * jsval)} {v : jsval} :
  forallb (fun kv => defined (snd kv)) props = true ->
  lookup k props = Some v -> defined v = true.
Proof.
  induction props as [|[k' v'] props IH]; simpl; [discriminate|].
  intros H. apply andb_prop in H as [Hv Hrest].
  destruct (String.eqb k k'); [now intros [= <-]|now apply IH].
Qed.

Lemma flatSteps_resolves (levelLimits : jsval) (k : string) :
  defined levelLimits = true -> notNull levelLimits = true ->
  exists limit,
    flatSteps levelLimits k = Normal limit
    /\ defined limit = true
    /\ (definedEntries levelLimits = true ->
        limit = orNull (match entry levelLimits k with
                        | Some l => Some l
                        | None => entry levelLimits "F"
                        end)).
Proof.
  unfold flatSteps.
  destruct levelLimits as [ | |x|props]; try discriminate; intros _ _; simpl.
  - exists JNull. repeat split.
  - destruct (lookup k props) as [l|] eqn:Ek; simpl.
    + destruct (defined l) eqn:Dl; simpl.
      * rewrite Dl. exists l. repeat split; exact Dl.
      * assert (Hno : forallb (fun kv => defined (snd kv)) props = true ->
                      False).
        { intros Hd. rewrite (lookup_defined Hd Ek) in Dl. discriminate. }
        destruct (lookup "F" props) as [f|] eqn:Ef; simpl.
        -- destruct (defined f) eqn:Df; simpl.
           ++ rewrite ?Ef; simpl; rewrite ?Df. exists f.
              split; [reflexivity|]. split; [exact Df|].
              intros Hd. destruct (Hno Hd).
           ++ rewrite Dl. exists JNull. repeat split.
              intros Hd. destruct (Hno Hd).
        -- rewrite Dl. exists JNull. repeat split.
           intros Hd. destruct (Hno Hd).
    + destruct (lookup "F" props) as [f|] eqn:Ef; simpl.
      * destruct (defined f) eqn:Df; simpl.
        -- rewrite ?Ef; simpl; rewrite ?Df. exists f.
           repeat split; exact Df.
        -- exists JNull. repeat split. intros Hd.
           rewrite (lookup_defined Hd Ef) in Df. discriminate.
      * exists JNull. repeat split.
Qed.

Lemma getLimit_steps (st : App.t) (paramLimits : jsval) :
  getLimit st paramLimits
  = if falsy paramLimits then Normal JNull
    else
      scoped <- getProp paramLimits (industryKey (App.industryType st)) ;;
      levelLimits <-
        (if defined scoped then
           getProp paramLimits (industryKey (App.industryType st))
         else Normal paramLimits) ;;
      flatSteps levelLimits (levelKey (App.complianceLevel st)).
Proof. reflexivity. Qed.

End ResolverAnySpec.

(** The two outcomes of [getLimit]. *)
Lemma getLimit_outcome (st : App.t) (spec : jsval) :
  (entry spec (industryKey (App.industryType st)) = Some JNull ->
   getLimit st spec = Throw "TypeError")
  /\ (entry spec (industryKey (App.industryType st)) <> Some JNull ->
      exists limit, getLimit st spec = Normal limit /\ limit <> JUndefined).
Proof.
  rewrite getLimit_steps.
  set (ik := industryKey (App.industryType st)).
  set (lk := levelKey (App.complianceLevel st)).
  assert (Hflat : forall o, defined o = true -> notNull o = true ->
            exists limit, flatSteps o lk = Normal limit
                          /\ limit <> JUndefined).
  { intros o Hd Hn. destruct (flatSteps_resolves o lk Hd Hn)
      as (limit & -> & Hl & _).
    exists limit. split; [reflexivity|]. now destruct limit. }
  destruct spec as [ | |x|props]; simpl.
  - split; [discriminate|]. intros _. now exists JNull.
  - split; [discriminate|]. intros _. now exists JNull.
  - split; [discriminate|]. intros _.
    destruct x; try (now exists JNull); now apply Hflat.
  - destruct (lookup ik props) as [[ | |x|bp]|] eqn:E; simpl;
      rewrite ?E; simpl.
    + split; [discriminate|]. intros _. now apply Hflat.
    + split; [reflexivity|]. intros H. now destruct H.
    + split; [discriminate|]. intros _. now apply Hflat.
    + split; [discriminate|]. intros _. now apply Hflat.
    + split; [discriminate|]. intros _. now apply Hflat.
Qed.

(** X1. [getLimit] throws exactly on a spec whose entry for the selected
    industry is [null]; on every other value it completes, and what it
    returns is never [undefined]. *)
Theorem getLimit_throws_on_null_branch (st : App.t) (spec : jsval) :
  (entry spec (industryKey (App.industryType st)) = Some JNull ->
   getLimit st spec = Throw "TypeError")
  /\ (entry spec (industryKey (App.industryType st)) <> Some JNull ->
      exists limit, getLimit st spec = Normal limit /\ limit <> JUndefined).
Proof. apply getLimit_outcome. Qed.

(** X2. On a spec no entry of which is [undefined] and whose entry for the
    selected industry is not [null], [getLimit] returns what the resolver
    of the specification returns: the fallback to [F] is looked up in the
    branch of the industry when the spec has one, never beside it. *)
Theorem getLimit_refines_resolveLimit (st : App.t) (spec : jsval) :
  wellFormedSpec (App.industryType st) spec = true ->
  getLimit st spec
  = Normal (orNull (resolveLimit (Some spec) (App.industryType st)
                      (App.complianceLevel st))).
Proof.
  unfold wellFormedSpec, resolveLimit. rewrite getLimit_steps.
  set (ik := industryKey (App.industryType st)).
  set (lk := levelKey (App.complianceLevel st)).
  intros H. apply andb_prop in H as [Hspec Hbranch].
  assert (Hflat : forall o, defined o = true -> notNull o = true ->
            definedEntries o = true ->
            flatSteps o lk
            = Normal (orNull (match entry o lk with
                              | Some l => Some l
                              | None =>
                                  match entry o "F" with
                                  | Some l => Some l
                                  | None => None
                                  end
                              end))).
  { intros o Hd Hn He. destruct (flatSteps_resolves o lk Hd Hn)
      as (limit & -> & _ & Hl).
    rewrite (Hl He). now destruct (entry o lk), (entry o "F"). }
  destruct spec as [ | |x|props]; simpl in *.
  - reflexivity.
  - reflexivity.
  - destruct x; try reflexivity; now rewrite Hflat.
  - destruct (lookup ik props) as [branch|] eqn:E; simpl.
    + apply andb_prop in Hbranch as [Hn He].
      pose proof (lookup_defined Hspec E) as Hd.
      rewrite Hd; simpl. now apply Hflat.
    + now apply Hflat.
Qed.

Lemma getLimit_refines_resolveLimit_witness :
  getLimit (context Textile Foundational)
    (JObject [("T", JObject [("P", n "1")]); ("F", n "5")])
  = Normal JNull.
Proof.
  now rewrite (getLimit_refines_resolveLimit (context Textile Foundational)
                 (JObject [("T", JObject [("P", n "1")]); ("F", n "5")])).
Defined.

Lemma getLimit_throws_on_null_branch_witness :
  getLimit (context Leather Progressive)
    (JObject [("T", tiers (n "1") (n "1") (n "1")); ("L", JNull)])
  = Throw "TypeError".
Proof.
  now apply (getLimit_throws_on_null_branch (context Leather Progressive)
               (JObject [("T", tiers (n "1") (n "1") (n "1"));
                         ("L", JNull)])).
Defined.

(** X3. For any parameter definition made of plain data, in or out of
    the table: when [getLimit] completes on its limits, each of the three
    callbacks completes and adds exactly one row; the sludge callback
    leaves the chart data as it was.  The reads of [limit.min] and
    [limit.max] never throw. *)
Theorem callbacks_add_one_row (st : App.t) (p : Param.t) (acc : Acc)
  (limit : jsval) :
  plain (Param.limits p) = true ->
  getLimit st (Param.limits p) = Normal limit ->
  (exists acc',
      scalarStep st p acc = Normal acc'
      /\ List.length (newResults acc') = S (List.length (newResults acc)))
  /\ (exists acc',
         conventionalStep st p acc = Normal acc'
         /\ List.length (newResults acc') = S (List.length (newResults acc)))
  /\ (exists acc',
         sludgeStep st p acc = Normal acc'
         /\ List.length (newResults acc') = S (List.length (newResults acc))
         /\ newChartData acc' = newChartData acc).
Proof.
  intros _ Hl.
  assert (Hdef : limit <> JUndefined).
  { destruct (getLimit_outcome st (Param.limits p)) as [Ht Hn].
    destruct (entry (Param.limits p) (industryKey (App.industryType st)))
      as [[ | | | ]|] eqn:E;
      try (destruct Hn as (l & Hl' & Hd); [discriminate|];
           rewrite Hl in Hl'; now injection Hl' as <-).
    rewrite Ht in Hl by reflexivity. discriminate. }
  unfold scalarStep, conventionalStep, sludgeStep.
  rewrite getInputValue_eq, Hl.
  generalize (inputValue st (Param.id p)). intros value.
  unfold addResult, pushChart.
  destruct limit as [ | |x|props]; [contradiction| | |];
    destruct (Param.isRange p); simpl;
    destruct (notNull value); simpl;
    repeat (match goal with
            | |- context [lookup ?k props] => destruct (lookup k props)
            | |- context [js_ge ?a ?b] => destruct (js_ge a b)
            end; simpl);
    (split; [|split]); eexists; (split; [reflexivity|]); simpl;
    rewrite ?length_app; simpl; try split; try reflexivity; lia.
Qed.

(** A range parameter out of the table whose limit has a minimum and no
    maximum, with a measured value: both bounds are read. *)
Lemma callbacks_add_one_row_witness :
  exists acc',
    conventionalStep (form [("x", str "7")] Textile Foundational Direct)
      (Param.make "x" "X" (onlyF (JObject [("min", n "6")])) None true)
      (mkAcc [] true [])
    = Normal acc'
    /\ List.length (newResults acc') = 1%nat.
Proof.
  destruct (callbacks_add_one_row
              (form [("x", str "7")] Textile Foundational Direct)
              (Param.make "x" "X" (onlyF (JObject [("min", n "6")])) None
                 true)
              (mkAcc [] true []) (JObject [("min", n "6")])
              eq_refl eq_refl) as (_ & H & _).
  exact H.
Defined.

(** ** The order on numbers is transitive *)

Section OrderFacts.

Lemma leb_trans (x y z : Number.t) :
  Number.leb x y = true -> Number.leb y z = true -> Number.leb x z = true.
Proof.
  unfold Number.leb, SFleb.
  destruct x as [sx|sx| |sx mx ex], y as [sy|sy| |sy my ey],
    z as [sz|sz| |sz mz ez]; simpl; try discriminate; try reflexivity;
    try (destruct sx; simpl; try discriminate; try reflexivity);
    try (destruct sy; simpl; try discriminate; try reflexivity);
    try (destruct sz; simpl; try discriminate; try reflexivity);
    repeat match goal with
      | |- context [(?a ?= ?b)%Z] => destruct (Z.compare_spec a b)
      | |- context [Pos.compare_cont Eq ?a ?b] =>
          change (Pos.compare_cont Eq a b) with (Pos.compare a b);
          destruct (Pos.compare_spec a b)
      end; simpl; intros; try discriminate; try reflexivity; lia.
Qed.

End OrderFacts.

(** ** The limits of the table, compared across contexts *)

Section TableOrder.

Lemma table_bounds_ordered :
  forallb
    (fun st =>
       forallb
         (fun p =>
            match getLimit st (Param.limits p) with
            | Normal limit => boundsOrdered limit
            | Throw _ => false
            end) allParams) contexts = true.
Proof. vm_compute. reflexivity. Qed.

Lemma tiers_within (i : Industry) (l1 l2 : Level) :
  stricter l1 l2 = true ->
  forallb (resolvesWithin (context i l1) (context i l2)) allParams = true.
Proof.
  destruct i, l1, l2; try discriminate; intros _; vm_compute; reflexivity.
Qed.

Lemma textile_within_leather (l : Level) :
  forallb (resolvesWithin (context Textile l) (context Leather l)) allParams
  = true.
Proof. destruct l; vm_compute; reflexivity. Qed.

Lemma Forall2_maps {A B C} (P : B -> C -> Prop) (f : A -> B) (g : A -> C)
  (l : list A) :
  (forall a, In a l -> P (f a) (g a)) -> Forall2 P (map f l) (map g l).
Proof.
  induction l as [|a l IH]; intros H; simpl; constructor.
  - apply H. now left.
  - apply IH. intros b Hb. apply H. now right.
Qed.

(** A value within a limit is within every limit that allows more. *)
Lemma classify_within (isRange : bool) (st : App.t) (id : string)
  (limit1 limit2 : jsval) :
  limitShape isRange limit1 -> limitShape isRange limit2 ->
  limitWithin limit1 limit2 = true ->
  classify isRange (inputValue st id) limit1 = true ->
  classify isRange (inputValue st id) limit2 = true.
Proof.
  intros H1 H2. unfold inputValue.
  destruct (Number.isNaN _); [reflexivity|].
  generalize (ParseFloat.parseFloat (paramText st id)). intros v.
  destruct H1 as [x1 _|lo1 hi1]; inversion H2 as [x2 _ E|lo2 hi2 E]; subst;
    unfold classify; cbn [notNull andb limitWithin range].
  - rewrite !js_le_number. intros Hw Hv. exact (leb_trans _ _ _ Hv Hw).
  - change (field (range (JNumber lo1) (JNumber hi1)) "min")
      with (JNumber lo1).
    change (field (range (JNumber lo1) (JNumber hi1)) "max")
      with (JNumber hi1).
    change (field (range (JNumber lo2) (JNumber hi2)) "min")
      with (JNumber lo2).
    change (field (range (JNumber lo2) (JNumber hi2)) "max")
      with (JNumber hi2).
    rewrite !js_ge_number, !js_le_number. intros Hw Hv.
    apply andb_prop in Hw as [Hlo Hhi]. apply andb_prop in Hv as [Hv1 Hv2].
    now rewrite (leb_trans _ _ _ Hlo Hv1), (leb_trans _ _ _ Hv2 Hhi).
Qed.

(** Two states with the same fields, the limits of the second allowing at
    least what those of the first allow. *)
Lemma check_within (st1 st2 : App.t) :
  App.params st1 = App.params st2 ->
  forallb (resolvesWithin st1 st2) allParams = true ->
  exists st1' st2',
    checkCompliance st1 = Normal st1'
    /\ checkCompliance st2 = Normal st2'
    /\ Forall2
         (fun r1 r2 =>
            Result.paramName r1 = Result.paramName r2
            /\ (Result.isCompliant r1 = true -> Result.isCompliant r2 = true))
         (App.results st1') (App.results st2')
    /\ (App.overallCompliant st1' = true ->
        App.overallCompliant st2' = true).
Proof.
  intros Hp Hw. rewrite forallb_forall in Hw.
  assert (Hrow : forall p, In p allParams ->
            Result.isCompliant (rowOf st1 p) = true ->
            Result.isCompliant (rowOf st2 p) = true).
  { intros p Hin. specialize (Hw p Hin). unfold resolvesWithin in Hw.
    destruct (limit_shape st1 p Hin) as (l1 & Hl1 & Hs1).
    destruct (limit_shape st2 p Hin) as (l2 & Hl2 & Hs2).
    rewrite Hl1, Hl2 in Hw. unfold rowOf; cbn [Result.isCompliant].
    rewrite (limitOf_eq _ _ _ Hl1), (limitOf_eq _ _ _ Hl2).
    replace (inputValue st2 (Param.id p)) with (inputValue st1 (Param.id p))
      by (unfold inputValue, paramText; now rewrite Hp).
    now apply classify_within. }
  do 2 eexists. split; [apply checkCompliance_eq|].
  split; [apply checkCompliance_eq|].
  cbn [App.results App.overallCompliant]. split.
  - apply Forall2_maps. intros p Hin. split; [reflexivity|now apply Hrow].
  - rewrite !forallb_forall. intros H r Hr.
    apply in_map_iff in Hr as (p & <- & Hin). apply Hrow; [exact Hin|].
    apply H, in_map, Hin.
Qed.

End TableOrder.

(** X4. In every context every parameter of the table has a limit: none
    is compliant for want of one.  The limit of a range parameter is a
    range whose minimum is at most its maximum, that of any other
    parameter is a number. *)
Theorem every_parameter_has_a_limit (st : App.t) (p : Param.t) :
  In p allParams ->
  exists limit,
    getLimit st (Param.limits p) = Normal limit
    /\ limit <> JNull
    /\ if Param.isRange p then
         exists lo hi,
           limit = range (JNumber lo) (JNumber hi)
           /\ Number.leb lo hi = true
       else exists x, limit = JNumber x.
Proof.
  intros Hp. destruct (limit_shape st p Hp) as (limit & Hl & Hs).
  exists limit. split; [exact Hl|].
  pose proof table_bounds_ordered as H. rewrite forallb_forall in H.
  specialize (H _ (context_listed (App.industryType st)
                     (App.complianceLevel st))).
  rewrite forallb_forall in H. specialize (H p Hp).
  rewrite <- getLimit_context, Hl in H.
  destruct Hs as [x _|lo hi].
  - split; [discriminate|]. now exists x.
  - split; [discriminate|]. now exists lo, hi.
Qed.

Lemma every_parameter_has_a_limit_witness :
  exists limit,
    getLimit (context Leather Aspirational)
      (Param.limits (rangeParam "sludge" "ph_sludge" "ph_sludge"
                       "pH (Sludge)"))
    = Normal limit
    /\ limit <> JNull.
Proof.
  destruct (every_parameter_has_a_limit (context Leather Aspirational)
              (rangeParam "sludge" "ph_sludge" "ph_sludge" "pH (Sludge)"))
    as (limit & Hl & Hn & _).
  - cbv [allParams mrslParams heavyMetalParams conventionalParams
         sludgeParams map app In]. tauto.
  - exists limit. split; [exact Hl|exact Hn].
Defined.

(** X5. Compliance carries over to every less strict tier: with the same
    fields and industry, a parameter that is compliant at a tier is
    compliant at each tier before it in the order foundational,
    progressive, aspirational, and so is the whole check. *)
Theorem compliance_carries_to_laxer_tier (st1 st2 : App.t) :
  App.params st1 = App.params st2 ->
  App.industryType st1 = App.industryType st2 ->
  stricter (App.complianceLevel st1) (App.complianceLevel st2) = true ->
  exists st1' st2',
    checkCompliance st1 = Normal st1'
    /\ checkCompliance st2 = Normal st2'
    /\ Forall2
         (fun r1 r2 =>
            Result.paramName r1 = Result.paramName r2
            /\ (Result.isCompliant r1 = true -> Result.isCompliant r2 = true))
         (App.results st1') (App.results st2')
    /\ (App.overallCompliant st1' = true ->
        App.overallCompliant st2' = true).
Proof.
  intros Hp Hi Hl. apply check_within; [exact Hp|].
  apply forallb_forall. intros p Hin.
  pose proof (tiers_within (App.industryType st1) _ _ Hl) as H.
  rewrite forallb_forall in H. specialize (H p Hin).
  unfold resolvesWithin in *.
  rewrite (getLimit_context st1), (getLimit_context st2), <- Hi.
  exact H.
Qed.

Lemma compliance_carries_to_laxer_tier_witness :
  exists st1' st2',
    checkCompliance (form [("cod", str "40")] Textile Aspirational Direct)
    = Normal st1'
    /\ checkCompliance (form [("cod", str "40")] Textile Foundational Direct)
       = Normal st2'
    /\ (App.overallCompliant st1' = true ->
        App.overallCompliant st2' = true).
Proof.
  destruct (compliance_carries_to_laxer_tier
              (form [("cod", str "40")] Textile Aspirational Direct)
              (form [("cod", str "40")] Textile Foundational Direct)
              eq_refl eq_refl eq_refl)
    as (st1' & st2' & H1 & H2 & _ & H).
  exists st1', st2'. split; [exact H1|]. split; [exact H2|exact H].
Defined.

(** X6. Compliance carries over from textile to leather: with the same
    fields and tier, a parameter that is compliant for the textile
    industry is compliant for the leather industry, and so is the whole
    check. *)
Theorem compliance_carries_to_leather (st1 st2 : App.t) :
  App.params st1 = App.params st2 ->
  App.complianceLevel st1 = App.complianceLevel st2 ->
  App.industryType st1 = Textile ->
  App.industryType st2 = Leather ->
  exists st1' st2',
    checkCompliance st1 = Normal st1'
    /\ checkCompliance st2 = Normal st2'
    /\ Forall2
         (fun r1 r2 =>
            Result.paramName r1 = Result.paramName r2
            /\ (Result.isCompliant r1 = true -> Result.isCompliant r2 = true))
         (App.results st1') (App.results st2')
    /\ (App.overallCompliant st1' = true ->
        App.overallCompliant st2' = true).
Proof.
  intros Hp Hl H1 H2. apply check_within; [exact Hp|].
  apply forallb_forall. intros p Hin.
  pose proof (textile_within_leather (App.complianceLevel st1)) as H.
  rewrite forallb_forall in H. specialize (H p Hin).
  unfold resolvesWithin in *.
  rewrite (getLimit_context st1), (getLimit_context st2), H1, H2, <- Hl.
  exact H.
Qed.

Lemma compliance_carries_to_leather_witness :
  exists st1' st2',
    checkCompliance (form [("bod5", str "25")] Textile Foundational Direct)
    = Normal st1'
    /\ checkCompliance (form [("bod5", str "25")] Leather Foundational Direct)
       = Normal st2'
    /\ (App.overallCompliant st1' = true ->
        App.overallCompliant st2' = true).
Proof.
  destruct (compliance_carries_to_leather
              (form [("bod5", str "25")] Textile Foundational Direct)
              (form [("bod5", str "25")] Leather Foundational Direct)
              eq_refl eq_refl eq_refl eq_refl)
    as (st1' & st2' & H1 & H2 & _ & H).
  exists st1', st2'. split; [exact H1|]. split; [exact H2|exact H].
Defined.

(** ** Editing fields and checking again *)

Section EditFacts.

Lemma lookup_setProp_same {A} (k : string) (v : A)
  (props : list (string * A)) :
  lookup k (setProp k v props) = Some v.
Proof.
  induction props as [|[k' v'] props IH]; simpl.
  - now rewrite String.eqb_refl.
  - destruct (String.eqb k k') eqn:E; simpl.
    + now rewrite String.eqb_refl.
    + now rewrite E.
Qed.

Lemma lookup_setProp_other {A} (k k' : string) (v : A)
  (props : list (string * A)) :
  k' <> k -> lookup k' (setProp k v props) = lookup k' props.
Proof.
  intros Hne. induction props as [|[k0 v0] props IH]; simpl.
  - apply String.eqb_neq in Hne. now rewrite Hne.
  - destruct (String.eqb k k0) eqn:E; simpl.
    + apply String.eqb_eq in E as <-.
      apply String.eqb_neq in Hne. now rewrite Hne.
    + now rewrite IH.
Qed.

Lemma setProp_keys {A} (k : string) (v : A) (props : list (string * A)) :
  In k (map fst props) -> map fst (setProp k v props) = map fst props.
Proof.
  induction props as [|[k0 v0] props IH]; simpl; [contradiction|].
  destruct (String.eqb k k0) eqn:E; simpl.
  - apply String.eqb_eq in E as <-. reflexivity.
  - intros [->|H]; [now rewrite String.eqb_refl in E|].
    now rewrite IH.
Qed.

(** The row and the points of a parameter depend on its own field and on
    the two selectors only. *)
Lemma rowOf_depends (st1 st2 : App.t) (p : Param.t) :
  paramText st1 (Param.id p) = paramText st2 (Param.id p) ->
  App.industryType st1 = App.industryType st2 ->
  App.complianceLevel st1 = App.complianceLevel st2 ->
  rowOf st1 p = rowOf st2 p /\ pointsOf st1 p = pointsOf st2 p.
Proof.
  intros Ht Hi Hl. unfold rowOf, pointsOf, inputValue, limitOf.
  rewrite (getLimit_context st1), (getLimit_context st2), Ht, Hi, Hl.
  now split.
Qed.

Lemma checkCompliance_completes (st : App.t) :
  exists st', checkCompliance st = Normal st'.
Proof. eexists. apply checkCompliance_eq. Qed.

End EditFacts.

(** X7. After [handleChange] on a field, the field reads the new text and
    every other field reads what it read before; no field is added or
    moved when the field was there; the three selectors and everything the
    last check left (results, overall flag, chart data, whether results
    are shown) are untouched. *)
Theorem handleChange_sets_one_field (st : App.t) (id : string)
  (text : jsstring) :
  paramText (handleChange id text st) id = text
  /\ (forall other, other <> id ->
        paramText (handleChange id text st) other = paramText st other)
  /\ (In id (map fst (App.params st)) ->
      map fst (App.params (handleChange id text st))
      = map fst (App.params st))
  /\ App.results (handleChange id text st) = App.results st
  /\ App.overallCompliant (handleChange id text st)
     = App.overallCompliant st
  /\ App.industryType (handleChange id text st) = App.industryType st
  /\ App.complianceLevel (handleChange id text st)
     = App.complianceLevel st
  /\ App.dischargeType (handleChange id text st) = App.dischargeType st
  /\ App.chartData (handleChange id text st) = App.chartData st
  /\ App.showResults (handleChange id text st) = App.showResults st.
Proof.
  unfold handleChange, paramText;
    cbn [App.params App.results App.overallCompliant App.industryType
         App.complianceLevel App.dischargeType App.chartData
         App.showResults].
  split; [now rewrite lookup_setProp_same|].
  split; [intros other Hne; now rewrite lookup_setProp_other|].
  split; [apply setProp_keys|]. repeat split.
Qed.

(** An edit of a checked leather form: the keys, the selectors and what
    the check left stay. *)
Lemma handleChange_sets_one_field_witness :
  exists checked,
    checkCompliance
      (form [("np", []); ("op", str "9"); ("pcp", [])] Leather Progressive
         ZLD)
    = Normal checked
    /\ map fst (App.params (handleChange "op" (str "3") checked))
       = ["np"; "op"; "pcp"]
    /\ paramText (handleChange "op" (str "3") checked) "op" = str "3"
    /\ App.industryType (handleChange "op" (str "3") checked) = Leather
    /\ App.complianceLevel (handleChange "op" (str "3") checked)
       = Progressive
    /\ App.dischargeType (handleChange "op" (str "3") checked) = ZLD
    /\ App.showResults (handleChange "op" (str "3") checked) = true
    /\ App.overallCompliant (handleChange "op" (str "3") checked) = false
    /\ App.chartData (handleChange "op" (str "3") checked)
       = App.chartData checked
    /\ App.results (handleChange "op" (str "3") checked)
       = App.results checked.
Proof.
  destruct (checkCompliance_completes
              (form [("np", []); ("op", str "9"); ("pcp", [])] Leather
                 Progressive ZLD)) as (checked & Hrun).
  exists checked. split; [exact Hrun|].
  destruct (handleChange_sets_one_field checked "op" (str "3"))
    as (Htext & _ & Hkeys & Hres & Hall & Hi & Hl & Hd & Hchart & Hshow).
  rewrite checkCompliance_eq in Hrun. injection Hrun as Hrun.
  rewrite Hkeys, Htext, Hres, Hall, Hi, Hl, Hd, Hchart, Hshow.
  - rewrite <- Hrun. repeat split; vm_compute; reflexivity.
  - rewrite <- Hrun. cbn. tauto.
Defined.

(** X8. Editing one field changes the result of its own parameter only:
    a check after [handleChange] on a field gives, for every parameter
    with another id, the row the check gave before the edit. *)
Theorem edit_changes_one_row (st : App.t) (id : string) (text : jsstring) :
  exists before after,
    checkCompliance st = Normal before
    /\ checkCompliance (handleChange id text st) = Normal after
    /\ forall i p,
        nth_error allParams i = Some p -> Param.id p <> id ->
        nth_error (App.results after) i = nth_error (App.results before) i.
Proof.
  do 2 eexists. split; [apply checkCompliance_eq|].
  split; [apply checkCompliance_eq|]. cbn [App.results].
  intros i p Hi Hne. rewrite !nth_error_map, Hi. cbn [option_map].
  f_equal. apply rowOf_depends; try reflexivity.
  unfold handleChange, paramText; cbn [App.params].
  now rewrite lookup_setProp_other.
Qed.

Lemma edit_changes_one_row_witness :
  exists before after,
    checkCompliance (form [("np", str "9")] Textile Foundational Direct)
    = Normal before
    /\ checkCompliance
         (handleChange "cadmium" (str "0.02")
            (form [("np", str "9")] Textile Foundational Direct))
       = Normal after
    /\ nth_error (App.results after) 0 = nth_error (App.results before) 0.
Proof.
  destruct (edit_changes_one_row
              (form [("np", str "9")] Textile Foundational Direct)
              "cadmium" (str "0.02"))
    as (before & after & H1 & H2 & H).
  exists before, after. split; [exact H1|]. split; [exact H2|].
  apply (H 0%nat (scalarParam "mrsl" "np" "np" "Nonylphenol (NP)" "µg/L")
           eq_refl).
  discriminate.
Defined.

(** X9. Checking again without an edit changes nothing: the state a check
    leaves is a fixed point of the check. *)
Theorem check_again_changes_nothing (st st' : App.t) :
  checkCompliance st = Normal st' -> checkCompliance st' = Normal st'.
Proof.
  rewrite checkCompliance_eq. intros [= <-].
  match goal with
  | |- checkCompliance ?s = _ =>
      assert (Hrow : forall p, rowOf s p = rowOf st p)
        by (intros p; now apply rowOf_depends);
      assert (Hpts : forall p, pointsOf s p = pointsOf st p)
        by (intros p; now apply rowOf_depends)
  end.
  rewrite checkCompliance_eq.
  cbn [App.params App.industryType App.complianceLevel App.dischargeType].
  now rewrite (map_ext _ _ Hrow), (flat_map_ext _ _ Hpts).
Qed.

Lemma check_again_changes_nothing_witness :
  exists st',
    checkCompliance (form [("ph", str "5.5")] Leather Progressive ZLD)
    = Normal st'
    /\ checkCompliance st' = Normal st'.
Proof.
  destruct (checkCompliance_completes
              (form [("ph", str "5.5")] Leather Progressive ZLD))
    as (st' & H).
  exists st'. split; [exact H|].
  exact (check_again_changes_nothing _ _ H).
Defined.

(** ** The charts *)

Section ChartRender.

Lemma filterWith_app {A} (callback : A -> completion bool)
  (l1 l2 r1 r2 : list A) :
  filterWith callback l1 = Normal r1 ->
  filterWith callback l2 = Normal r2 ->
  filterWith callback (l1 ++ l2) = Normal (r1 ++ r2).
Proof.
  revert r1. induction l1 as [|x l1 IH]; simpl; intros r1 H1 H2.
  - now injection H1 as <-.
  - destruct (callback x) as [keep|]; [|discriminate]. simpl in *.
    destruct (filterWith callback l1) as [kept|]; [|discriminate].
    simpl in *. injection H1 as <-.
    rewrite (IH kept eq_refl H2). simpl. now destruct keep.
Qed.

Lemma filterWith_all {A} (callback : A -> completion bool) (keep : bool)
  (l : list A) :
  (forall x, In x l -> callback x = Normal keep) ->
  filterWith callback l = Normal (if keep then l else []).
Proof.
  induction l as [|x l IH]; intros H; simpl; [now destruct keep|].
  rewrite (H x (or_introl eq_refl)). simpl.
  rewrite IH by (intros y Hy; apply H; now right). simpl.
  now destruct keep.
Qed.

(** Where the two filters send the points of each parameter. *)
Lemma filters_on_ids (d : ChartPoint.t) (p : Param.t) :
  ChartPoint.id d = Param.id p ->
  (In p (mrslParams ++ heavyMetalParams) ->
   inMrslOrHeavyMetals d = Normal true /\ inConventional d = Normal false)
  /\ (In p conventionalParams ->
      inMrslOrHeavyMetals d = Normal false
      /\ inConventional d = Normal true).
Proof.
  intros Hid. unfold inMrslOrHeavyMetals, inConventional. rewrite Hid.
  split; intros H;
    cbv [mrslParams heavyMetalParams conventionalParams map app In] in H;
    repeat (destruct H as [H|H]; [subst p; split; reflexivity|]);
    contradiction.
Qed.

Lemma points_filtered (st : App.t) (ps : list Param.t)
  (callback : ChartPoint.t -> completion bool) (keep : bool) :
  (forall p d, In p ps -> ChartPoint.id d = Param.id p ->
               callback d = Normal keep) ->
  filterWith callback (flat_map (pointsOf st) ps)
  = Normal (if keep then flat_map (pointsOf st) ps else []).
Proof.
  intros H. apply filterWith_all. intros d Hd.
  apply in_flat_map in Hd as (p & Hp & Hd).
  apply (H p d Hp). now apply pointsOf_id in Hd.
Qed.

Lemma check_view (st st' : App.t) :
  checkCompliance st = Normal st' ->
  App.results st' = map (rowOf st) allParams
  /\ App.chartData st' = flat_map (pointsOf st) chartedParams
  /\ App.overallCompliant st'
     = forallb Result.isCompliant (map (rowOf st) allParams).
Proof. rewrite checkCompliance_eq. intros [= <-]. repeat split. Qed.

Lemma chartedParams_split :
  chartedParams = (mrslParams ++ heavyMetalParams) ++ conventionalParams.
Proof. unfold chartedParams. now rewrite app_assoc. Qed.

End ChartRender.

(** X10. The two charts share out the chart series of a check: the first
    takes the points of the MRSL and heavy metal parameters, the second
    those of the conventional parameters, and the first followed by the
    second is the whole series; neither filter throws. *)
Theorem charts_share_out_the_series (st st' : App.t) :
  checkCompliance st = Normal st' ->
  exists first second,
    mrslHeavyMetalsChart st' = Normal first
    /\ conventionalChart st' = Normal second
    /\ App.chartData st' = first ++ second
    /\ (forall d, In d first ->
          In (ChartPoint.id d)
             (map Param.id (mrslParams ++ heavyMetalParams)))
    /\ (forall d, In d second ->
          In (ChartPoint.id d) (map Param.id conventionalParams)).
Proof.
  intros H. apply check_view in H as (_ & Hchart & _).
  unfold mrslHeavyMetalsChart, conventionalChart. rewrite Hchart.
  rewrite chartedParams_split, flat_map_app.
  exists (flat_map (pointsOf st) (mrslParams ++ heavyMetalParams)),
    (flat_map (pointsOf st) conventionalParams).
  split; [|split; [|split; [reflexivity|split]]].
  - rewrite <- (app_nil_r (flat_map _ (mrslParams ++ heavyMetalParams)))
      at 2.
    apply filterWith_app.
    + apply (points_filtered st _ _ true). intros p d Hp Hid.
      now apply (filters_on_ids d p Hid).
    + apply (points_filtered st _ _ false). intros p d Hp Hid.
      now apply (filters_on_ids d p Hid).
  - rewrite <- (app_nil_l (flat_map _ conventionalParams)) at 2.
    apply filterWith_app.
    + apply (points_filtered st _ _ false). intros p d Hp Hid.
      now apply (filters_on_ids d p Hid).
    + apply (points_filtered st _ _ true). intros p d Hp Hid.
      now apply (filters_on_ids d p Hid).
  - intros d Hd. apply in_flat_map in Hd as (p & Hp & Hd).
    rewrite (pointsOf_id st p d Hd). now apply in_map.
  - intros d Hd. apply in_flat_map in Hd as (p & Hp & Hd).
    rewrite (pointsOf_id st p d Hd). now apply in_map.
Qed.

Lemma charts_share_out_the_series_witness :
  exists st' first second,
    checkCompliance
      (form [("np", str "2"); ("ph", str "7")] Textile Foundational Direct)
    = Normal st'
    /\ mrslHeavyMetalsChart st' = Normal first
    /\ conventionalChart st' = Normal second
    /\ App.chartData st' = first ++ second.
Proof.
  destruct (checkCompliance_completes
              (form [("np", str "2"); ("ph", str "7")] Textile Foundational
                 Direct)) as (st' & H).
  destruct (charts_share_out_the_series _ _ H)
    as (first & second & H1 & H2 & H3 & _).
  exists st', first, second. repeat split; assumption.
Defined.





(** X13. A field that is missing from [params] reads as the text
    [undefined], which is no number: its parameter has no measured value.
    A check of a form that lacks the field of every parameter shows N/A in
    every row, finds every row compliant and charts nothing. *)
Theorem missing_fields_are_absent (st : App.t) :
  (forall id, lookup id (App.params st) = None ->
              getInputValue st id = Normal JNull)
  /\ ((forall p, In p allParams ->
                 lookup (Param.id p) (App.params st) = None) ->
      exists st',
        checkCompliance st = Normal st'
        /\ Forall (fun r => Result.value r = Text "N/A"
                            /\ Result.isCompliant r = true)
             (App.results st')
        /\ App.chartData st' = []
        /\ App.overallCompliant st' = true).
Proof.
  assert (Hnull : forall id, lookup id (App.params st) = None ->
                             inputValue st id = JNull).
  { intros id H. unfold inputValue, paramText. now rewrite H. }
  split.
  - intros id H. rewrite getInputValue_eq. now rewrite Hnull.
  - intros H. eexists. split; [apply checkCompliance_eq|].
    cbn [App.results App.chartData App.overallCompliant].
    assert (Hrows : Forall (fun r => Result.value r = Text "N/A"
                                     /\ Result.isCompliant r = true)
                      (map (rowOf st) allParams)).
    { apply Forall_forall. intros r Hr.
      apply in_map_iff in Hr as (p & <- & Hp).
      unfold rowOf, classify; cbn [Result.value Result.isCompliant].
      now rewrite (Hnull _ (H p Hp)). }
    split; [exact Hrows|]. split.
    + assert (Hall : forall ps, (forall p, In p ps -> In p allParams) ->
                flat_map (pointsOf st) ps = []).
      { induction ps as [|p ps IH]; intros Hin; [reflexivity|]. simpl.
        rewrite IH by (intros q Hq; apply Hin; now right).
        unfold pointsOf.
        now rewrite (Hnull _ (H p (Hin p (or_introl eq_refl)))). }
      apply Hall. intros p Hp. apply allParams_split. now left.
    + apply forallb_forall. intros r Hr.
      rewrite Forall_forall in Hrows. now apply Hrows.
Qed.

Lemma missing_fields_are_absent_witness :
  exists st',
    checkCompliance (form [] Leather Aspirational Indirect) = Normal st'
    /\ App.chartData st' = []
    /\ App.overallCompliant st' = true.
Proof.
  destruct (missing_fields_are_absent
              (form [] Leather Aspirational Indirect)) as [_ H].
  destruct H as (st' & H1 & _ & H2 & H3); [reflexivity|].
  exists st'. split; [exact H1|]. split; [exact H2|exact H3].
Defined.

(** ** Saving and loading *)

Section StoreFacts.

Lemma memoryStore_keeps : keepsDocuments (list (string * Document.t)).
Proof.
  intros s s' path d H. simpl in H. injection H as <-. simpl.
  now rewrite lookup_setProp_same.
Qed.

End StoreFacts.

(** X14. Saving and then loading gives the form back.  On any store that
    keeps what it accepts: after a [saveResults] that reports success, a
    [loadResults] by the same user, whatever is in the form by then, sets
    the fields and the three selectors to the saved ones and reports
    success. *)
Theorem save_then_load_restores_the_form {S : Type} `{DocumentStore S}
  (app_id : option string) (now : string) (c c1 c2 : Component.t)
  (store store1 : S) :
  keepsDocuments S ->
  saveResults app_id now c store = (c1, store1) ->
  Component.message c1 = "Data saved successfully!" ->
  notReady c2 = false ->
  Component.userId c2 = Component.userId c ->
  let c3 := loadResults app_id c2 store1 in
  App.params (Component.app c3) = App.params (Component.app c)
  /\ App.industryType (Component.app c3)
     = App.industryType (Component.app c)
  /\ App.complianceLevel (Component.app c3)
     = App.complianceLevel (Component.app c)
  /\ App.dischargeType (Component.app c3)
     = App.dischargeType (Component.app c)
  /\ Component.message c3 = "Data loaded successfully!".
Proof.
  intros Hkeeps Hsave Hmsg Hready Huser. unfold saveResults in Hsave.
  destruct (notReady c).
  { injection Hsave as <- _. discriminate. }
  destruct (setDoc store _ _) as [s' [e|]] eqn:Hset.
  { injection Hsave as <- _. discriminate. }
  injection Hsave as _ <-. apply Hkeeps in Hset.
  unfold loadResults. rewrite Hready, Huser, Hset.
  cbn [Document.params Document.industryType Document.complianceLevel
       Document.dischargeType Component.app Component.message].
  destruct (checkCompliance (Component.app c2)); repeat split.
Qed.

Lemma save_then_load_restores_the_form_witness :
  let ready st := Component.make st (Some FirestoreInstance) "u1" true
                    EmptyString in
  let saved := saveResults None "2024-01-01T00:00:00.000Z"
                 (ready (form [("cod", str "40")] Leather Progressive ZLD))
                 [] in
  App.params
    (Component.app
       (loadResults None (ready (form [] Textile Foundational Direct))
          (snd saved)))
  = [("cod", str "40")].
Proof.
  intros ready saved.
  apply (save_then_load_restores_the_form None "2024-01-01T00:00:00.000Z"
           (ready (form [("cod", str "40")] Leather Progressive ZLD))
           (fst saved) (ready (form [] Textile Foundational Direct))
           [] (snd saved) memoryStore_keeps);
    reflexivity.
Defined.

Section RenderFacts.

(** The setter calls of a render's [checkCompliance], applied to the state
    of that render, give the state the check action leaves. *)
Lemma checkComplianceOf_agrees (c : Component.t) :
  exists checked,
    checkCompliance (Component.app c) = Normal checked
    /\ Component.app
         (fold_left (fun c s => applySetter s c)
            (checkComplianceOf (Component.app c)) c)
       = checked.
Proof.
  unfold checkComplianceOf, checkCompliance.
  rewrite runLoops_eq.
  generalize (map (rowOf (Component.app c)) allParams) as rows.
  generalize (flat_map (pointsOf (Component.app c)) chartedParams) as points.
  intros points rows. eexists. split; reflexivity.
Qed.


End RenderFacts.



(** C5. [getInputValue] does not return absent for every text that is not
    a valid number, as its comment in the source ("check if it's a valid
    number") and the specification have it.  A stored document brings the
    text [12abc] into the field of nonylphenol through [loadResults]; the
    text is not a valid number, and [getInputValue] returns the number 12
    for it. *)
Theorem getInputValue_accepts_trailing_text :
  let c := Component.make (form [] Textile Foundational Direct)
             (Some FirestoreInstance) "u1" true EmptyString in
  let store := [(docPath None "u1",
                 Document.make (Some [("np", str "12abc")]) (Some Textile)
                   (Some Foundational) (Some Direct) None)] in
  let st := Component.app (loadResults None c store) in
  paramText st "np" = str "12abc"
  /\ ~ validNumber (paramText st "np")
  /\ getInputValue st "np" = Normal (JNumber (num "12")).
Proof.
  intros c store st.
  assert (Htext : paramText st "np" = str "12abc")
    by (vm_compute; reflexivity).
  split; [exact Htext|]. split.
  - rewrite Htext. intros H. apply literal_chars in H.
    vm_compute in H. discriminate.
  - vm_compute. reflexivity.
Qed.
